(** * sitemap-scan: locating and walking a site's sitemaps

    A shallow embedding of [src/cli.js] (the file [src/unnamed/part_001] is an
    earlier copy of the same three functions with another user agent and
    without [getLinks]).  The script is asynchronous JavaScript over two
    libraries, axios (HTTP) and xml2js (XML to plain JS objects); here

    - the values that flow through the walker are the plain JS values xml2js
      produces: [undefined], [null], strings, arrays and objects;
    - the network, the XML parser and the [URL] constructor are not part of
      the repository: they are the fields of a [Platform];
    - [console] output, HEAD and GET requests are recorded in a trace;
    - an [async] function is a computation that returns, throws (its promise
      rejects), ends the process, or is still waiting when the fuel of the
      model runs out. *)

From Stdlib Require Import String Ascii List Bool Arith Lia NArith DecimalString Permutation.
Import ListNotations.
Open Scope string_scope.
Set Warnings "-register-all".

(** ** JavaScript values *)

Inductive value : Type :=
| Undefined
| Null
| Str (s : string)
| Arr (items : list value)
| Obj (fields : list (string * value)).

Inductive error : Type :=
| TypeError      (* raised by the language: property of undefined, not a function, Invalid URL *)
| AxiosError     (* axios.head / axios.get rejected: transport failure or status outside 2xx *)
| XmlError.      (* parser.parseStringPromise rejected *)

(** [if (v)], [!v] and [&&] look at truthiness. *)
Definition truthy (v : value) : bool :=
  match v with
  | Undefined | Null => false
  | Str s => negb (String.eqb s "")
  | Arr _ | Obj _ => true
  end.

Fixpoint lookup (name : string) (fields : list (string * value)) : value :=
  match fields with
  | [] => Undefined
  | (k, v) :: rest => if String.eqb k name then v else lookup name rest
  end.

(** [v.name] for a name that no built-in prototype defines (the walker reads
    [sitemapindex], [sitemap], [urlset], [url] and [loc]). *)
Definition get_prop (v : value) (name : string) : error + value :=
  match v with
  | Undefined | Null => inl TypeError
  | Str _ | Arr _ => inr Undefined
  | Obj fields => inr (lookup name fields)
  end.

(** [v[0]]; for a string, its first character (strings are compared here
    byte by byte, which agrees with JavaScript on ASCII text). *)
Definition index0 (v : value) : error + value :=
  match v with
  | Undefined | Null => inl TypeError
  | Str EmptyString => inr Undefined
  | Str (String c _) => inr (Str (String c EmptyString))
  | Arr items => inr (hd Undefined items)
  | Obj fields => inr (lookup "0" fields)
  end.

(** The callback [entry => entry.loc[0]] of both [map] calls. *)
Definition loc0 (entry : value) : error + value :=
  match get_prop entry "loc" with
  | inl e => inl e
  | inr l => index0 l
  end.

Fixpoint map_items (f : value -> error + value) (items : list value) : error + list value :=
  match items with
  | [] => inr []
  | x :: rest =>
      match f x with
      | inl e => inl e
      | inr y =>
          match map_items f rest with
          | inl e => inl e
          | inr ys => inr (y :: ys)
          end
      end
  end.

(** [v.map(f)]: only an array has a callable [map]. *)
Definition js_map (f : value -> error + value) (v : value) : error + list value :=
  match v with
  | Arr items => map_items f items
  | Undefined | Null | Str _ | Obj _ => inl TypeError
  end.

(** [a && b] where [b] is evaluated only when [a] is truthy. *)
Definition js_and (a : error + value) (b : error + value) : error + value :=
  match a with
  | inl e => inl e
  | inr x => if truthy x then b else inr x
  end.

(** ** Effects *)

Inductive event : Type :=
| console_log (line : string)
| console_error (line : string) (err : option error)
| console_inspect (v : value)     (* console.log of something that is not a string *)
| HEAD (url : string)
| GET (url : value).

Definition trace := list event.

Inductive completion (A : Type) : Type :=
| Normal (a : A)        (* returned; the promise is fulfilled *)
| Throw (e : error)     (* threw; the promise is rejected *)
| Exit (code : nat)     (* process.exit(code) *)
| Pending.              (* out of fuel: the promise has not settled *)
Arguments Normal {A} a.
Arguments Throw {A} e.
Arguments Exit {A} code.
Arguments Pending {A}.

Definition M (S A : Type) : Type := S -> completion A * S.

Definition ret {S A} (a : A) : M S A := fun s => (Normal a, s).
Definition throw {S A} (e : error) : M S A := fun s => (Throw e, s).
Definition process_exit {S A} (code : nat) : M S A := fun s => (Exit code, s).
Definition pending {S A} : M S A := fun s => (Pending, s).

Definition bind {S A B} (m : M S A) (k : A -> M S B) : M S B :=
  fun s =>
    match m s with
    | (Normal a, s') => k a s'
    | (Throw e, s') => (Throw e, s')
    | (Exit code, s') => (Exit code, s')
    | (Pending, s') => (Pending, s')
    end.

Notation "x <- m ;; k" := (bind m (fun x => k))
  (at level 61, m at next level, right associativity).
Notation "m ;; k" := (bind m (fun _ => k))
  (at level 61, right associativity).

(** [try { body } catch (error) { handler }]: only a throw is caught, and the
    handler runs in the state the body had reached. *)
Definition try_catch {S A} (body : M S A) (handler : error -> M S A) : M S A :=
  fun s =>
    match body s with
    | (Throw e, s') => handler e s'
    | other => other
    end.

Definition of_sum {S A} (r : error + A) : M S A :=
  match r with
  | inl e => throw e
  | inr a => ret a
  end.

Fixpoint forEach {S A} (items : list A) (f : A -> M S unit) : M S unit :=
  match items with
  | [] => ret tt
  | x :: rest => f x ;; forEach rest f
  end.

Definition emit (e : event) : M trace unit := fun t => (Normal tt, (t ++ [e])%list).

(** ** The platform

    What the script gets from Node and its two libraries.  A request's answer
    is a function of the URL alone for the duration of one run. *)

Record Platform : Type := {
  (* [new URL(s).origin]; [None] when the constructor throws *)
  URL_origin : string -> option string;
  (* [axios.head(url, ...)] resolves *)
  axios_head : string -> bool;
  (* [(await axios.get(url, ...)).data]; [None] when the request rejects *)
  axios_get : value -> option value;
  (* [parser.parseStringPromise(data)]; [None] when it rejects *)
  parseStringPromise : value -> option value;
  (* an array or object inside a template literal; [None] when the
     conversion throws (an object without a prototype has no [toString]) *)
  object_to_string : value -> option string
}.

(** [`${v}`] *)
Definition template (P : Platform) (v : value) : error + string :=
  match v with
  | Undefined => inr "undefined"
  | Null => inr "null"
  | Str s => inr s
  | Arr _ | Obj _ =>
      match object_to_string P v with
      | Some s => inr s
      | None => inl TypeError
      end
  end.

(** ** The script *)

Record scan : Type := { subSitemaps : list value; contentUrls : list value }.

Definition sitemapPaths : list string :=
  [ "/sitemap.xml";
    "/sitemap_index.xml";
    "/wp-sitemap.xml";
    "/sitemap-index.xml";
    "/sitemap.xml.gz" ].

Definition startsWith (s p : string) : bool := String.prefix p s.

Definition baseUrl (domain : string) : string :=
  if startsWith domain "http" then domain else "https://" ++ domain.

Section Script.

Variable P : Platform.

Definition new_URL_origin (s : string) : M trace string :=
  match URL_origin P s with
  | Some origin => ret origin
  | None => throw TypeError
  end.

(** [await axios.head(sitemapUrl, ...)] *)
Definition head (sitemapUrl : string) : M trace unit :=
  emit (HEAD sitemapUrl) ;;
  if axios_head P sitemapUrl then ret tt else throw AxiosError.

(** The [for] loop of [findMainSitemap] with the two statements after it.
    A [return] inside the [try] leaves the loop; a rejected [head] falls
    through the empty [catch] to the next path. *)
Fixpoint probe (domain origin : string) (paths : list string) : M trace (option string) :=
  match paths with
  | [] =>
      emit (console_log ("❌ Could not find a sitemap for " ++ domain ++ ".")) ;;
      ret None
  | sitemapPath :: rest =>
      let sitemapUrl := origin ++ sitemapPath in
      returned <- try_catch
                    (head sitemapUrl ;;
                     emit (console_log ("✅ Found main sitemap at: " ++ sitemapUrl)) ;;
                     ret true)
                    (fun _ => ret false) ;;
      if (returned : bool) then ret (Some sitemapUrl) else probe domain origin rest
  end.

(** [findMainSitemap], cli.js lines 19-46. *)
Definition findMainSitemap (domain : string) : M trace (option string) :=
  origin <- new_URL_origin (baseUrl domain) ;;
  emit (console_log ("🔎 Searching for a sitemap on " ++ origin ++ "...")) ;;
  probe domain origin sitemapPaths.

(** The locals [subSitemaps] and [contentUrls] of one call of [parseSitemap]
    sit next to the trace while its body runs. *)
Definition frame : Type := scan * trace.

Definition lift {A} (m : M trace A) : M frame A :=
  fun '(acc, t) => let (c, t') := m t in (c, (acc, t')).

Definition push_subSitemaps (items : list value) : M frame unit :=
  fun '(acc, t) =>
    (Normal tt, ({| subSitemaps := (subSitemaps acc ++ items)%list;
                    contentUrls := contentUrls acc |}, t)).

Definition push_contentUrls (items : list value) : M frame unit :=
  fun '(acc, t) =>
    (Normal tt, ({| subSitemaps := subSitemaps acc;
                    contentUrls := (contentUrls acc ++ items)%list |}, t)).

Definition get_locals : M frame scan := fun '(acc, t) => (Normal acc, (acc, t)).

(** [let subSitemaps = []; let contentUrls = [];] around a body. *)
Definition with_locals {A} (body : M frame A) : M trace A :=
  fun t =>
    let '(c, (_, t')) := body ({| subSitemaps := []; contentUrls := [] |}, t) in (c, t').

(** [(await axios.get(sitemapUrl, ...)).data] *)
Definition get (sitemapUrl : value) : M trace value :=
  emit (GET sitemapUrl) ;;
  match axios_get P sitemapUrl with
  | Some data => ret data
  | None => throw AxiosError
  end.

(** [await parser.parseStringPromise(data)] *)
Definition parse (data : value) : M trace value :=
  match parseStringPromise P data with
  | Some result => ret result
  | None => throw XmlError
  end.

(** [result.a.b] *)
Definition path2 (result : value) (a b : string) : error + value :=
  match get_prop result a with
  | inl e => inl e
  | inr x => get_prop x b
  end.

(** The body of the loop over [sitemapLocations]: one nested walk, whose two
    lists are appended to this call's. *)
Definition nested (parseSitemap : value -> M trace scan) (location : value) : M frame unit :=
  nestedResult <- lift (parseSitemap location) ;;
  push_subSitemaps (subSitemaps nestedResult) ;;
  push_contentUrls (contentUrls nestedResult).

(** [if (result.sitemapindex && result.sitemapindex.sitemap) { ... }] *)
Definition walk_index (parseSitemap : value -> M trace scan) (result : value) : M frame unit :=
  isIndex <- of_sum (js_and (get_prop result "sitemapindex")
                            (path2 result "sitemapindex" "sitemap")) ;;
  if truthy isIndex then
    sitemapLocations <- of_sum (match path2 result "sitemapindex" "sitemap" with
                                | inl e => inl e
                                | inr entries => js_map loc0 entries
                                end) ;;
    push_subSitemaps sitemapLocations ;;
    forEach sitemapLocations (nested parseSitemap)
  else ret tt.

(** [if (result.urlset && result.urlset.url) { ... }] *)
Definition collect_urlset (result : value) : M frame unit :=
  isUrlset <- of_sum (js_and (get_prop result "urlset") (path2 result "urlset" "url")) ;;
  if truthy isUrlset then
    urls <- of_sum (match path2 result "urlset" "url" with
                    | inl e => inl e
                    | inr entries => js_map loc0 entries
                    end) ;;
    push_contentUrls urls
  else ret tt.

(** The block of the [try]. *)
Definition try_block (parseSitemap : value -> M trace scan) (sitemapUrl : value) : M frame unit :=
  data <- lift (get sitemapUrl) ;;
  result <- lift (parse data) ;;
  walk_index parseSitemap result ;;
  collect_urlset result.

(** [parseSitemap], cli.js lines 53-83.  One unit of fuel per call; the
    nested calls get what is left. *)
Fixpoint parseSitemap (fuel : nat) (sitemapUrl : value) : M trace scan :=
  match fuel with
  | O => pending
  | S fuel' =>
      shown <- of_sum (template P sitemapUrl) ;;
      emit (console_log ("🔎 Parsing " ++ shown ++ "...")) ;;
      with_locals
        (try_catch
           (try_block (parseSitemap fuel') sitemapUrl)
           (fun error =>
              lift (emit (console_error ("❌ An error occurred with sitemap: " ++ shown)
                                        (Some error)))) ;;
         get_locals)
  end.

(** [!s] for [s] a string, [null] or [undefined] *)
Definition not_string (s : option string) : bool :=
  match s with
  | None => true
  | Some str => String.eqb str ""
  end.

Definition url_value (mainSitemapUrl : option string) : value :=
  match mainSitemapUrl with
  | None => Null
  | Some url => Str url
  end.

(** [getLinks], cli.js lines 91-98. *)
Definition getLinks (fuel : nat) (domain : string) : M trace (list value) :=
  mainSitemapUrl <- findMainSitemap domain ;;
  if not_string mainSitemapUrl then ret []
  else
    result <- parseSitemap fuel (url_value mainSitemapUrl) ;;
    ret (contentUrls result).

(** [console.log(url)] in the two [forEach] calls of the CLI *)
Definition log_value (url : value) : event :=
  match url with
  | Str line => console_log line
  | other => console_inspect other
  end.

Definition decimal (n : nat) : string := NilEmpty.string_of_uint (Nat.to_uint n).

Definition nl : string := String (ascii_of_nat 10) "".

(** [process.argv[i]] is [undefined] past the end; the first test of
    [cliMain] leaves the process before an [undefined] domain is used. *)
Definition argv_string (arg : option string) : string :=
  match arg with
  | Some str => str
  | None => ""
  end.

(** [cliMain], cli.js lines 105-150. *)
Definition cliMain (fuel : nat) (argv : list string) : M trace unit :=
  let domain := nth_error argv 2 in
  let argument := argv_string (nth_error argv 3) in
  (if not_string domain || not_string (nth_error argv 3) then
     emit (console_error "❌ Please provide a domain and an argument." None) ;;
     emit (console_log "Usage: node sitemap-scan.js example.com [--main|--subs|--urls]") ;;
     process_exit 1
   else ret tt) ;;
  mainSitemapUrl <- findMainSitemap (argv_string domain) ;;
  (if not_string mainSitemapUrl then process_exit 1 else ret tt) ;;
  if String.eqb argument "--main" then
    emit (console_log (nl ++ "Main Sitemap URL:")) ;;
    emit (log_value (url_value mainSitemapUrl))
  else
    result <- parseSitemap fuel (url_value mainSitemapUrl) ;;
    if String.eqb argument "--subs" then
      if Nat.ltb 0 (List.length (subSitemaps result)) then
        emit (console_log (nl ++ "Found " ++ decimal (List.length (subSitemaps result))
                              ++ " Sub-Sitemap URLs:")) ;;
        forEach (subSitemaps result) (fun url => emit (log_value url))
      else
        emit (console_log (nl ++ "No sub-sitemaps found."))
    else if String.eqb argument "--urls" then
      if Nat.ltb 0 (List.length (contentUrls result)) then
        emit (console_log (nl ++ "Found " ++ decimal (List.length (contentUrls result))
                              ++ " Content URLs:")) ;;
        forEach (contentUrls result) (fun url => emit (log_value url))
      else
        emit (console_log (nl ++ "No content URLs found in the sitemap(s)."))
    else
      emit (console_error ("❌ Invalid argument: " ++ argument
                           ++ ". Please use --main, --subs, or --urls.") None) ;;
      process_exit 1.

(** [if (require.main === module) { cliMain().catch(console.error); }],
    cli.js lines 155-157. *)
Definition main (fuel : nat) (argv : list string) : M trace unit :=
  try_catch (cliMain fuel argv) (fun error => emit (console_error "" (Some error))).

End Script.

Definition is_request (e : event) : bool :=
  match e with
  | HEAD _ | GET _ => true
  | console_log _ | console_error _ _ | console_inspect _ => false
  end.

Definition requests (t : trace) : trace := filter is_request t.

Definition head_requests (t : trace) : list string :=
  flat_map (fun e => match e with HEAD url => [url] | _ => [] end) t.

Definition get_requests (t : trace) : list value :=
  flat_map (fun e => match e with GET url => [url] | _ => [] end) t.

(** ** A model of [new URL(s).origin]

    The constructor is Node's, not the repository's; the general theorems
    below take it from the [Platform].  The examples need a concrete one: this
    is the URL Standard's parser without a base URL, as far as the origin is
    concerned, for hosts written with ASCII letters, digits, [-] and [.]
    (IPv4 and IPv6 literals, percent-escapes and IDNA are left out). *)

Module WHATWG.

Definition code (c : ascii) : nat := nat_of_ascii c.

Definition is_alpha (c : ascii) : bool :=
  (Nat.leb 65 (code c) && Nat.leb (code c) 90) || (Nat.leb 97 (code c) && Nat.leb (code c) 122).

Definition is_digit (c : ascii) : bool := Nat.leb 48 (code c) && Nat.leb (code c) 57.

Definition lower (c : ascii) : ascii :=
  if Nat.leb 65 (code c) && Nat.leb (code c) 90 then ascii_of_nat (code c + 32) else c.

Definition is_c0_or_space (c : ascii) : bool := Nat.leb (code c) 32.

Definition is_tab_or_newline (c : ascii) : bool :=
  Nat.eqb (code c) 9 || Nat.eqb (code c) 10 || Nat.eqb (code c) 13.

Definition one_of (chars : string) (c : ascii) : bool :=
  existsb (Ascii.eqb c) (list_ascii_of_string chars).

Fixpoint trim_start (s : string) : string :=
  match s with
  | String c rest => if is_c0_or_space c then trim_start rest else s
  | EmptyString => EmptyString
  end.

Fixpoint trim_end (s : string) : string :=
  match s with
  | String c rest =>
      match trim_end rest with
      | EmptyString => if is_c0_or_space c then EmptyString else String c EmptyString
      | kept => String c kept
      end
  | EmptyString => EmptyString
  end.

Fixpoint remove (drop : ascii -> bool) (s : string) : string :=
  match s with
  | String c rest => if drop c then remove drop rest else String c (remove drop rest)
  | EmptyString => EmptyString
  end.

(** Scheme state: letters, digits, [+], [-], [.] up to the first colon. *)
Fixpoint scheme_state (s : string) : option (string * string) :=
  match s with
  | EmptyString => None
  | String c rest =>
      if Ascii.eqb c ":" then Some (EmptyString, rest)
      else if is_alpha c || is_digit c || one_of "+-." c then
        match scheme_state rest with
        | Some (scheme, after) => Some (String (lower c) scheme, after)
        | None => None
        end
      else None
  end.

(** Scheme start state: without a letter first, or without a colon, there is
    no scheme, and without a base URL that is a failure. *)
Definition split_scheme (s : string) : option (string * string) :=
  match s with
  | String c _ => if is_alpha c then scheme_state s else None
  | EmptyString => None
  end.

Fixpoint skip_slashes (s : string) : string :=
  match s with
  | String c rest => if one_of "/\" c then skip_slashes rest else s
  | EmptyString => EmptyString
  end.

Fixpoint authority (s : string) : string :=
  match s with
  | String c rest => if one_of "/\?#" c then EmptyString else String c (authority rest)
  | EmptyString => EmptyString
  end.

Fixpoint has (c : ascii) (s : string) : bool :=
  match s with
  | String d rest => Ascii.eqb c d || has c rest
  | EmptyString => false
  end.

(** The host starts after the last [@] of the authority. *)
Fixpoint after_credentials (s : string) : string :=
  match s with
  | String c rest => if has "@" s then after_credentials rest else s
  | EmptyString => EmptyString
  end.

Fixpoint split_port (s : string) : string * option string :=
  match s with
  | String c rest =>
      if Ascii.eqb c ":" then (EmptyString, Some rest)
      else let (host, port) := split_port rest in (String c host, port)
  | EmptyString => (EmptyString, None)
  end.

Definition forbidden_in_domain (c : ascii) : bool :=
  Nat.leb (code c) 32 || Nat.leb 127 (code c) || one_of "#/:<>?@[\]^|%" c.

Fixpoint all_chars (p : ascii -> bool) (s : string) : bool :=
  match s with
  | String c rest => p c && all_chars p rest
  | EmptyString => true
  end.

Fixpoint port_number (s : string) (acc : N) : N :=
  match s with
  | String c rest => port_number rest (acc * 10 + N.of_nat (code c - 48))%N
  | EmptyString => acc
  end.

Definition default_port (scheme : string) : N :=
  if String.eqb scheme "http" || String.eqb scheme "ws" then 80%N
  else if String.eqb scheme "https" || String.eqb scheme "wss" then 443%N
  else 21%N.

Definition is_special (scheme : string) : bool :=
  existsb (String.eqb scheme) ["http"; "https"; "ws"; "wss"; "ftp"].

Definition decimal_N (n : N) : string := NilEmpty.string_of_uint (N.to_uint n).

Definition origin (input : string) : option string :=
  let input := remove is_tab_or_newline (trim_end (trim_start input)) in
  match split_scheme input with
  | None => None
  | Some (scheme, rest) =>
      if is_special scheme then
        let (host, port) := split_port (after_credentials (authority (skip_slashes rest))) in
        if String.eqb host "" || negb (all_chars (fun c => negb (forbidden_in_domain c)) host)
        then None
        else
          let host := string_of_list_ascii (map lower (list_ascii_of_string host)) in
          match port with
          | None => Some (scheme ++ "://" ++ host)
          | Some digits =>
              if negb (all_chars is_digit digits) then None
              else if String.eqb digits "" then Some (scheme ++ "://" ++ host)
              else
                let n := port_number digits 0%N in
                if N.ltb 65535 n then None
                else if N.eqb n (default_port scheme) then Some (scheme ++ "://" ++ host)
                else Some (scheme ++ "://" ++ host ++ ":" ++ decimal_N n)
          end
      else Some "null"
  end.

End WHATWG.

(** ** Documents and platforms for the examples *)

(** What xml2js makes of [<sitemap><loc>u</loc></sitemap>] or [<url><loc>u</loc></url>]. *)
Definition loc_entry (u : string) : value := Obj [("loc", Arr [Str u])].

(** [<urlset> <url><loc>u</loc></url> ... </urlset>] *)
Definition urlset_doc (urls : list string) : value :=
  Obj [("urlset", Obj [("url", Arr (map loc_entry urls))])].

(** [<sitemapindex> <sitemap><loc>u</loc></sitemap> ... </sitemapindex>] *)
Definition sitemapindex_doc (locations : list string) : value :=
  Obj [("sitemapindex", Obj [("sitemap", Arr (map loc_entry locations))])].

Definition is_str (u : string) (v : value) : bool :=
  match v with
  | Str s => String.eqb s u
  | _ => false
  end.

(** A site given by the candidate URLs that answer HEAD and by the parsed
    document behind each URL that answers GET.  A response body is kept as
    the document it parses to. *)
Definition site (reachable : list string) (documents : list (string * value)) : Platform :=
  {| URL_origin := WHATWG.origin;
     axios_head := fun url => existsb (String.eqb url) reachable;
     axios_get := fun url =>
       match url with
       | Str u => option_map snd (find (fun d => String.eqb (fst d) u) documents)
       | _ => None
       end;
     parseStringPromise := fun data =>
       match data with
       | Obj _ => Some data
       | _ => None
       end;
     object_to_string := fun _ => None |}.

(** The scenario of the specification: only [/sitemap.xml] answers, it is an
    index of one urlset with two pages. *)
Definition example_com : Platform :=
  site ["https://example.com/sitemap.xml"]
       [("https://example.com/sitemap.xml",
         sitemapindex_doc ["https://example.com/sitemap-posts.xml"]);
        ("https://example.com/sitemap-posts.xml",
         urlset_doc ["https://example.com/p1"; "https://example.com/p2"])].

(** A site on which no candidate answers. *)
Definition nowhere : Platform := site [] [].

(** A site whose only sitemap is the one WordPress serves. *)
Definition wordpress : Platform :=
  site ["https://blog.example.org/wp-sitemap.xml"]
       [("https://blog.example.org/wp-sitemap.xml",
         urlset_doc ["https://blog.example.org/hello-world"])].

(** A site whose sitemap is reachable once the bare host is given a scheme. *)
Definition httpbin : Platform :=
  site ["https://httpbin.org/sitemap.xml"]
       [("https://httpbin.org/sitemap.xml", urlset_doc ["https://httpbin.org/get"])].

(** A urlset that lists one page twice. *)
Definition twice : Platform :=
  site ["https://example.com/sitemap.xml"]
       [("https://example.com/sitemap.xml",
         urlset_doc ["https://example.com/a"; "https://example.com/b"; "https://example.com/a"])].

(** An index of two urlsets, with two and with three pages. *)
Definition two_children : Platform :=
  site ["https://shop.example/sitemap_index.xml"]
       [("https://shop.example/sitemap_index.xml",
         sitemapindex_doc ["https://shop.example/a.xml"; "https://shop.example/b.xml"]);
        ("https://shop.example/a.xml",
         urlset_doc ["https://shop.example/a1"; "https://shop.example/a2"]);
        ("https://shop.example/b.xml",
         urlset_doc ["https://shop.example/b1"; "https://shop.example/b2";
                     "https://shop.example/b3"])].

(** An index of three sitemaps, the second of which is not served. *)
Definition one_broken : Platform :=
  site ["https://news.example/sitemap.xml"]
       [("https://news.example/sitemap.xml",
         sitemapindex_doc ["https://news.example/2023.xml"; "https://news.example/2024.xml";
                           "https://news.example/2025.xml"]);
        ("https://news.example/2023.xml", urlset_doc ["https://news.example/old"]);
        ("https://news.example/2025.xml", urlset_doc ["https://news.example/new"])].

(** An index that lists itself. *)
Definition self_reference : Platform :=
  site ["https://loop.example/sitemap.xml"]
       [("https://loop.example/sitemap.xml",
         sitemapindex_doc ["https://loop.example/sitemap.xml"])].

(** Two indexes that list each other. *)
Definition two_cycle : Platform :=
  site ["https://ring.example/sitemap.xml"]
       [("https://ring.example/sitemap.xml", sitemapindex_doc ["https://ring.example/more.xml"]);
        ("https://ring.example/more.xml", sitemapindex_doc ["https://ring.example/sitemap.xml"])].

(** Answers that are not sitemaps: a feed, an index whose entry has no
    [loc], a page that is not XML. *)
Definition malformed : Platform :=
  site ["https://odd.example/sitemap.xml"]
       [("https://odd.example/feed.xml", Obj [("rss", Obj [("channel", Arr [Str "news"])])]);
        ("https://odd.example/sitemap.xml",
         Obj [("sitemapindex",
               Obj [("sitemap", Arr [Obj [("lastmod", Arr [Str "2024-01-01"])]])])]);
        ("https://odd.example/index.html", Str "<!doctype html>")].

(** How far below a URL of [two_children] the sitemaps go. *)
Definition depth_two_children (url : value) : nat :=
  if is_str "https://shop.example/sitemap_index.xml" url then 1 else 0.

Definition no_scan : scan := {| subSitemaps := []; contentUrls := [] |}.

(** What one call of [parseSitemap] on a string logs and requests before it
    looks at the answer. *)
Definition opening (url : string) : trace :=
  [console_log ("🔎 Parsing " ++ url ++ "..."); GET (Str url)].

(** The diagnostic of the [catch] block. *)
Definition diagnostic (url : string) (e : error) : event :=
  console_error ("❌ An error occurred with sitemap: " ++ url) (Some e).

(** An index whose first [loc] carries an attribute, so that xml2js gives
    an object for it, on a platform whose parsed objects have no prototype. *)
Definition attributed_loc : Platform :=
  site ["https://attr.example/sitemap.xml"]
       [("https://attr.example/sitemap.xml",
         Obj [("sitemapindex",
               Obj [("sitemap",
                     Arr [Obj [("loc", Arr [Obj [("_", Str "https://attr.example/a.xml");
                                                 ("$", Obj [("hreflang", Str "en")])]])];
                          loc_entry "https://attr.example/b.xml"])])]);
        ("https://attr.example/b.xml", urlset_doc ["https://attr.example/b1"])].

(** ** Vocabulary of the statements *)

(** The document the walker gets for a URL: fetched, then parsed. *)
Definition serves (P : Platform) (url result : value) : Prop :=
  exists data, axios_get P url = Some data /\ parseStringPromise P data = Some result.

(** The error of a node whose fetch or parse fails. *)
Definition failure (P : Platform) (url : value) : option error :=
  match axios_get P url with
  | None => Some AxiosError
  | Some data =>
      match parseStringPromise P data with
      | None => Some XmlError
      | Some _ => None
      end
  end.

(** A urlset document: no [sitemapindex] root, and [url] children whose first
    [loc] are [urls], in document order. *)
Definition is_urlset (result : value) (urls : list value) : Prop :=
  get_prop result "sitemapindex" = inr Undefined /\
  exists set entries,
    get_prop result "urlset" = inr set /\
    get_prop set "url" = inr (Arr entries) /\
    Forall2 (fun entry u => loc0 entry = inr u) entries urls.

(** A sitemap index: no [urlset] root, and [sitemap] children whose first
    [loc] are [locations], in document order. *)
Definition is_sitemapindex (result : value) (locations : list value) : Prop :=
  get_prop result "urlset" = inr Undefined /\
  exists index entries,
    get_prop result "sitemapindex" = inr index /\
    get_prop index "sitemap" = inr (Arr entries) /\
    Forall2 (fun entry u => loc0 entry = inr u) entries locations.

(** The locations [walk_index] loops over for a parsed document: those of an
    index, none when the document is no index or the extraction throws. *)
Definition locations_of (result : value) : list value :=
  match js_and (get_prop result "sitemapindex") (path2 result "sitemapindex" "sitemap") with
  | inl _ => []
  | inr isIndex =>
      if truthy isIndex then
        match path2 result "sitemapindex" "sitemap" with
        | inl _ => []
        | inr entries =>
            match js_map loc0 entries with
            | inl _ => []
            | inr locations => locations
            end
        end
      else []
  end.

(** The locations [parseSitemap] descends into at a URL: none when the fetch
    or the parse fails. *)
Definition sitemapLocations (P : Platform) (url : value) : list value :=
  match axios_get P url with
  | None => []
  | Some data =>
      match parseStringPromise P data with
      | None => []
      | Some result => locations_of result
      end
  end.

(** The loop over the locations of an index, when every nested walk returns:
    the results in order, and the trace threaded through. *)
Inductive walks (P : Platform) (fuel : nat) : list value -> trace -> list scan -> trace -> Prop :=
| walks_nil : forall t, walks P fuel [] t [] t
| walks_cons : forall location rest t r t1 rs t2,
    parseSitemap P fuel location t = (Normal r, t1) ->
    walks P fuel rest t1 rs t2 ->
    walks P fuel (location :: rest) t (r :: rs) t2.

(** The completions a computation may have, given whether it may end the
    process and whether it may stay pending; returning and throwing are
    always possible. *)
Definition within (exits pendings : bool) {A} (c : completion A) : Prop :=
  match c with
  | Normal _ | Throw _ => True
  | Exit _ => exits = true
  | Pending => pendings = true
  end.

(** One of the two shapes [parseSitemap] looks for. *)
Definition recognized (result : value) : bool :=
  match js_and (get_prop result "sitemapindex") (path2 result "sitemapindex" "sitemap") with
  | inr isIndex => truthy isIndex
  | inl _ => false
  end
  ||
  match js_and (get_prop result "urlset") (path2 result "urlset" "url") with
  | inr isUrlset => truthy isUrlset
  | inl _ => false
  end.

Definition settled {A} (c : completion A) : Prop :=
  match c with
  | Normal _ | Throw _ => True
  | Exit _ | Pending => False
  end.

(** The existence checks of the candidates [paths] under [origin]. *)
Definition checks (origin : string) (paths : list string) : trace :=
  map (fun q => HEAD (origin ++ q)) paths.

(** The two lines of the usage error, and the line that rejects a mode. *)
Definition usage_error : trace :=
  [console_error "❌ Please provide a domain and an argument." None;
   console_log "Usage: node sitemap-scan.js example.com [--main|--subs|--urls]"].

Definition invalid_argument (argument : string) : event :=
  console_error ("❌ Invalid argument: " ++ argument
                 ++ ". Please use --main, --subs, or --urls.") None.

Definition is_mode (argument : string) : bool :=
  existsb (String.eqb argument) ["--main"; "--subs"; "--urls"].

(** A site on which two candidates answer; the first of the list is not
    one of them. *)
Definition two_reachable : Platform :=
  site ["https://cms.example/wp-sitemap.xml"; "https://cms.example/sitemap_index.xml"]
       [("https://cms.example/sitemap_index.xml", urlset_doc ["https://cms.example/about"])].

(** A site whose only candidate is compressed: it answers HEAD, and what GET
    returns is not XML. *)
Definition gzip_only : Platform :=
  site ["https://gz.example/sitemap.xml.gz"]
       [("https://gz.example/sitemap.xml.gz", Str "not XML: a gzip stream")].

(** An index and a urlset, each with one entry that has no [loc] between two
    that have one. *)
Definition missing_loc : Platform :=
  site ["https://gap.example/sitemap.xml"]
       [("https://gap.example/sitemap.xml",
         Obj [("sitemapindex",
               Obj [("sitemap", Arr [loc_entry "https://gap.example/pages.xml";
                                     Obj [("lastmod", Arr [Str "2024-05-01"])];
                                     loc_entry "https://gap.example/posts.xml"])])]);
        ("https://gap.example/pages.xml",
         Obj [("urlset",
               Obj [("url", Arr [loc_entry "https://gap.example/a";
                                 Obj [("priority", Arr [Str "0.5"])];
                                 loc_entry "https://gap.example/b"])])]);
        ("https://gap.example/posts.xml", urlset_doc ["https://gap.example/p"])].

(** The URLs [findMainSitemap] may check for a domain, in the order of the
    loop; none when [new URL] throws. *)
Definition candidates (P : Platform) (domain : string) : list string :=
  match URL_origin P (baseUrl domain) with
  | Some origin => map (append origin) sitemapPaths
  | None => []
  end.

(** What the CLI prints for a list of URLs under a heading, or instead of it
    when the list is empty. *)
Definition listing (found none : string) (urls : list value) : trace :=
  match urls with
  | [] => [console_log (nl ++ none)]
  | _ :: _ =>
      console_log (nl ++ "Found " ++ decimal (List.length urls) ++ found) :: map log_value urls
  end.

(** * Theorems *)

(** ** The model of [URL] on a few inputs *)

Example origin_bare : WHATWG.origin "https://example.com" = Some "https://example.com".
Proof. reflexivity. Qed.

Example origin_drops_path :
  WHATWG.origin "http://Example.com:8080/a/b?q=1#f" = Some "http://example.com:8080".
Proof. reflexivity. Qed.

Example origin_default_port : WHATWG.origin "https://example.com:443/x" = Some "https://example.com".
Proof. reflexivity. Qed.

Example origin_no_scheme : WHATWG.origin "httpbin.org" = None.
Proof. reflexivity. Qed.

Example origin_no_host : WHATWG.origin "https://" = None.
Proof. reflexivity. Qed.

Example origin_opaque : WHATWG.origin "httpx://example.com" = Some "null".
Proof. reflexivity. Qed.


(** ** Strings and traces *)

Lemma append_inj_l (a b c : string) : a ++ b = a ++ c -> b = c.
Proof.
  induction a as [|ch a IH]; simpl; intro H.
  - exact H.
  - injection H as H. auto.
Qed.

Lemma append_nonempty (a b : string) : b <> "" -> a ++ b <> "".
Proof.
  destruct a; simpl; [auto | discriminate].
Qed.

Lemma sitemapPaths_NoDup : NoDup sitemapPaths.
Proof.
  unfold sitemapPaths.
  repeat constructor; simpl; intuition discriminate.
Qed.

Lemma sitemapPaths_nonempty (q : string) : In q sitemapPaths -> q <> "".
Proof.
  unfold sitemapPaths; simpl. intuition (subst; discriminate).
Qed.

Lemma head_requests_app (t u : trace) :
  head_requests (t ++ u)%list = (head_requests t ++ head_requests u)%list.
Proof. unfold head_requests. now rewrite flat_map_app. Qed.

Lemma get_requests_app (t u : trace) :
  get_requests (t ++ u)%list = (get_requests t ++ get_requests u)%list.
Proof. unfold get_requests. now rewrite flat_map_app. Qed.

Lemma requests_app (t u : trace) : requests (t ++ u)%list = (requests t ++ requests u)%list.
Proof. unfold requests. apply filter_app. Qed.

Lemma head_requests_checks (origin : string) (paths : list string) :
  head_requests (checks origin paths) = map (append origin) paths.
Proof.
  induction paths as [|q paths IH]; simpl; [reflexivity | now rewrite IH].
Qed.

Lemma get_requests_checks (origin : string) (paths : list string) :
  get_requests (checks origin paths) = [].
Proof.
  induction paths as [|q paths IH]; simpl; [reflexivity | exact IH].
Qed.

(** ** The locator *)

Section Locator.

Variable P : Platform.

Lemma probe_found (domain origin : string) (pre : list string) (p : string)
      (post : list string) (t : trace) :
  (forall q, In q pre -> axios_head P (origin ++ q) = false) ->
  axios_head P (origin ++ p) = true ->
  probe P domain origin (pre ++ p :: post) t =
  (Normal (Some (origin ++ p)),
   (t ++ checks origin pre
      ++ [HEAD (origin ++ p);
          console_log ("✅ Found main sitemap at: " ++ origin ++ p)])%list).
Proof.
  revert t. induction pre as [|q pre IH]; intros t Hpre Hp.
  - simpl. unfold bind, try_catch, head, emit, bind, ret. rewrite Hp. simpl.
    now rewrite <- app_assoc.
  - cbn [app probe]. unfold bind at 1. unfold try_catch, head, emit, bind.
    rewrite (Hpre q (or_introl eq_refl)). unfold throw, ret.
    rewrite IH by auto using in_cons.
    cbn [checks map]. now rewrite <- !app_assoc.
Qed.

Lemma probe_missing (domain origin : string) (paths : list string) (t : trace) :
  (forall q, In q paths -> axios_head P (origin ++ q) = false) ->
  probe P domain origin paths t =
  (Normal None,
   (t ++ checks origin paths
      ++ [console_log ("❌ Could not find a sitemap for " ++ domain ++ ".")])%list).
Proof.
  revert t. induction paths as [|q paths IH]; intros t Hall.
  - reflexivity.
  - cbn [probe]. unfold bind at 1. unfold try_catch, head, emit, bind.
    rewrite (Hall q (or_introl eq_refl)). unfold throw, ret.
    rewrite IH by auto using in_cons.
    cbn [checks map]. now rewrite <- !app_assoc.
Qed.

Lemma probe_some (domain origin : string) (paths : list string) (t : trace)
      (u : string) (t1 : trace) :
  probe P domain origin paths t = (Normal (Some u), t1) ->
  exists q, In q paths /\ u = origin ++ q.
Proof.
  revert t. induction paths as [|q paths IH]; intros t.
  - cbn. unfold bind, emit, ret. discriminate.
  - cbn [probe]. unfold bind at 1. unfold try_catch, head, emit, bind.
    destruct (axios_head P (origin ++ q)); unfold throw, ret.
    + intro H. injection H as H _. exists q. split; [now left | now symmetry].
    + intro H. destruct (IH _ H) as (q' & Hin & Hu). exists q'. split; [now right | exact Hu].
Qed.

Lemma findMainSitemap_some (domain : string) (t : trace) (u : string) (t1 : trace) :
  findMainSitemap P domain t = (Normal (Some u), t1) ->
  exists origin q,
    URL_origin P (baseUrl domain) = Some origin /\ In q sitemapPaths /\ u = origin ++ q.
Proof.
  unfold findMainSitemap, new_URL_origin, bind at 1.
  destruct (URL_origin P (baseUrl domain)) as [origin|]; unfold throw, ret; [|discriminate].
  unfold bind, emit. intro H. apply probe_some in H. destruct H as (q & Hin & Hu).
  now exists origin, q.
Qed.

(** C1. When exactly one candidate path of the fixed list answers the
    existence check under the domain's origin, [findMainSitemap] returns
    origin + that path, has checked the candidates before it and that one, in
    order, and has checked none of the candidates after it; it has sent no
    GET. *)
Theorem findMainSitemap_single_reachable (domain origin p : string) (t : trace) :
  URL_origin P (baseUrl domain) = Some origin ->
  In p sitemapPaths ->
  axios_head P (origin ++ p) = true ->
  (forall q, In q sitemapPaths -> q <> p -> axios_head P (origin ++ q) = false) ->
  exists pre post t',
    sitemapPaths = (pre ++ p :: post)%list /\
    findMainSitemap P domain t = (Normal (Some (origin ++ p)), (t ++ t')%list) /\
    head_requests t' = map (append origin) (pre ++ [p]) /\
    (forall q, In q post -> ~ In (origin ++ q) (head_requests t')) /\
    get_requests t' = [].
Proof.
  intros Horigin Hin Hp Hothers.
  destruct (in_split _ _ Hin) as (pre & post & Hsplit).
  pose proof sitemapPaths_NoDup as Hnd. rewrite Hsplit in Hnd.
  pose proof (NoDup_remove_2 _ _ _ Hnd) as Hfresh.
  assert (Hpre : forall q, In q pre -> axios_head P (origin ++ q) = false).
  { intros q Hq. apply Hothers.
    - rewrite Hsplit. apply in_or_app. now left.
    - intros ->. apply Hfresh. apply in_or_app. now left. }
  exists pre, post.
  eexists. split; [exact Hsplit|]. split; [|split; [|split]].
  - unfold findMainSitemap, new_URL_origin, bind at 1. rewrite Horigin. unfold ret.
    unfold bind at 1. unfold emit. rewrite Hsplit.
    rewrite (probe_found domain origin pre p post _ Hpre Hp).
    rewrite <- app_assoc. reflexivity.
  - rewrite !head_requests_app, head_requests_checks, map_app. reflexivity.
  - intros q Hq Hin'.
    rewrite !head_requests_app, head_requests_checks in Hin'.
    apply in_app_or in Hin'. destruct Hin' as [[]|Hin'].
    apply in_app_or in Hin'. destruct Hin' as [Hin'|[Heq|[]]].
    + apply in_map_iff in Hin'. destruct Hin' as (q' & Heq & Hq').
      apply append_inj_l in Heq. subst q'.
      apply NoDup_remove_1 in Hnd.
      revert Hnd Hq Hq'. clear. intros Hnd Hq Hq'.
      induction pre as [|x pre IH]; [contradiction|].
      cbn [app] in Hnd. inversion Hnd as [|? ? Hx Hnd']; subst.
      destruct Hq' as [->|Hq'].
      * apply Hx. apply in_or_app. now right.
      * now apply IH.
    + apply append_inj_l in Heq. subst q. apply Hfresh. apply in_or_app. now right.
  - rewrite !get_requests_app, get_requests_checks. reflexivity.
Qed.

(** C6. On a domain whose candidates all fail the existence check,
    [findMainSitemap] returns [null] (it does not throw), no GET is sent, and
    [getLinks] returns the empty list; when [findMainSitemap] returns a URL,
    [getLinks] returns the content URLs of the walk from it and nothing else. *)
Theorem getLinks_found_or_empty (fuel : nat) (domain origin : string) (t : trace) :
  URL_origin P (baseUrl domain) = Some origin ->
  ((forall q, In q sitemapPaths -> axios_head P (origin ++ q) = false) ->
   exists t',
     findMainSitemap P domain t = (Normal None, (t ++ t')%list) /\
     get_requests t' = [] /\
     getLinks P fuel domain t = (Normal [], (t ++ t')%list)) /\
  (forall u t1 r t2,
     findMainSitemap P domain t = (Normal (Some u), t1) ->
     parseSitemap P fuel (Str u) t1 = (Normal r, t2) ->
     getLinks P fuel domain t = (Normal (contentUrls r), t2)).
Proof.
  intros Horigin. split.
  - intros Hall.
    assert (Hfind : findMainSitemap P domain t =
                    (Normal None,
                     (t ++ console_log ("🔎 Searching for a sitemap on " ++ origin ++ "...")
                        :: checks origin sitemapPaths
                        ++ [console_log ("❌ Could not find a sitemap for " ++ domain ++ ".")])%list)).
    { unfold findMainSitemap, new_URL_origin, bind at 1. rewrite Horigin. unfold ret.
      unfold bind at 1. unfold emit.
      rewrite (probe_missing domain origin sitemapPaths _ Hall).
      rewrite <- app_assoc. reflexivity. }
    eexists. split; [exact Hfind|]. split.
    + cbn [get_requests flat_map app]. rewrite get_requests_app, get_requests_checks. reflexivity.
    + unfold getLinks, bind at 1. rewrite Hfind. reflexivity.
  - intros u t1 r t2 Hfind Hwalk.
    destruct (findMainSitemap_some _ _ _ _ Hfind) as (o & q & _ & Hq & Hu).
    unfold getLinks, bind at 1. rewrite Hfind. cbn [not_string url_value].
    assert (Hne : String.eqb u "" = false).
    { apply String.eqb_neq. subst u. apply append_nonempty. now apply sitemapPaths_nonempty. }
    rewrite Hne. unfold bind. rewrite Hwalk. reflexivity.
Qed.

(** C9. When the string handed to [new URL] (the domain itself when it
    starts with the four characters [http], the domain after [https://]
    otherwise) is not a valid absolute URL, [findMainSitemap] throws before
    anything is logged or requested, and so does [getLinks]. *)
Theorem findMainSitemap_invalid_url_throws (fuel : nat) (domain : string) (t : trace) :
  URL_origin P (baseUrl domain) = None ->
  (startsWith domain "http" = true -> baseUrl domain = domain) /\
  findMainSitemap P domain t = (Throw TypeError, t) /\
  getLinks P fuel domain t = (Throw TypeError, t).
Proof.
  intros Hurl. split; [|split].
  - unfold baseUrl. now intros ->.
  - unfold findMainSitemap, new_URL_origin, bind. now rewrite Hurl.
  - unfold getLinks, findMainSitemap, new_URL_origin, bind. now rewrite Hurl.
Qed.

Lemma probe_checks (domain origin : string) (paths : list string) (t : trace)
      (c : completion (option string)) (t' : trace) :
  probe P domain origin paths t = (c, t') ->
  exists n, head_requests t' = (head_requests t ++ map (append origin) (firstn n paths))%list.
Proof.
  revert t. induction paths as [|q paths IH]; intros t.
  - cbn. unfold bind, emit, ret. intros [= _ <-]. exists 0.
    rewrite head_requests_app. reflexivity.
  - cbn [probe]. unfold bind at 1. unfold try_catch, head, emit, bind.
    destruct (axios_head P (origin ++ q)); unfold throw, ret.
    + intros [= _ <-]. exists 1. rewrite !head_requests_app. cbn. now rewrite app_nil_r.
    + intros H. destruct (IH _ H) as (n & Hn). exists (S n).
      rewrite Hn, head_requests_app. cbn. now rewrite <- app_assoc.
Qed.

(** The part of C8 the code keeps: a domain that does not start with [http]
    is given [https://], and every existence check is made against the
    origin of the result followed by a candidate path, in the order of the
    list. *)
Lemma findMainSitemap_checks_under_origin (domain origin : string) (t : trace)
      (c : completion (option string)) (t' : trace) :
  startsWith domain "http" = false ->
  URL_origin P ("https://" ++ domain) = Some origin ->
  findMainSitemap P domain t = (c, t') ->
  baseUrl domain = "https://" ++ domain /\
  exists n,
    head_requests t' = (head_requests t ++ map (append origin) (firstn n sitemapPaths))%list.
Proof.
  intros Hstart Horigin. unfold findMainSitemap, baseUrl. rewrite Hstart.
  unfold new_URL_origin, bind at 1. rewrite Horigin. unfold ret, bind, emit.
  intros H. split; [reflexivity|].
  destruct (probe_checks _ _ _ _ _ _ H) as (n & Hn). exists n.
  rewrite Hn, head_requests_app. cbn. now rewrite app_nil_r.
Qed.

End Locator.

Lemma findMainSitemap_single_reachable_witness :
  exists pre post t',
    sitemapPaths = (pre ++ "/wp-sitemap.xml" :: post)%list /\
    findMainSitemap wordpress "blog.example.org" [] =
    (Normal (Some ("https://blog.example.org" ++ "/wp-sitemap.xml")), ([] ++ t')%list) /\
    head_requests t' = map (append "https://blog.example.org") (pre ++ ["/wp-sitemap.xml"]) /\
    (forall q, In q post -> ~ In ("https://blog.example.org" ++ q) (head_requests t')) /\
    get_requests t' = [].
Proof.
  apply (findMainSitemap_single_reachable wordpress "blog.example.org"
           "https://blog.example.org" "/wp-sitemap.xml" []).
  - reflexivity.
  - simpl. auto.
  - reflexivity.
  - intros q Hin Hne. simpl in Hin.
    repeat (destruct Hin as [<-|Hin]; [first [reflexivity | now elim Hne]|]).
    contradiction.
Defined.

Lemma getLinks_found_or_empty_witness :
  (exists t',
     findMainSitemap nowhere "example.com" [] = (Normal None, ([] ++ t')%list) /\
     get_requests t' = [] /\
     getLinks nowhere 3 "example.com" [] = (Normal [], ([] ++ t')%list)) /\
  getLinks example_com 3 "example.com" [] =
  (Normal [Str "https://example.com/p1"; Str "https://example.com/p2"],
   snd (parseSitemap example_com 3 (Str "https://example.com/sitemap.xml")
          (snd (findMainSitemap example_com "example.com" [])))).
Proof.
  split.
  - apply (getLinks_found_or_empty nowhere 3 "example.com" "https://example.com" []).
    + reflexivity.
    + intros q Hin. simpl in Hin.
      repeat (destruct Hin as [<-|Hin]; [reflexivity|]). contradiction.
  - apply (proj2 (getLinks_found_or_empty example_com 3 "example.com" "https://example.com" []
                    eq_refl)
             "https://example.com/sitemap.xml"
             (snd (findMainSitemap example_com "example.com" []))
             {| subSitemaps := [Str "https://example.com/sitemap-posts.xml"];
                contentUrls := [Str "https://example.com/p1"; Str "https://example.com/p2"] |}
             (snd (parseSitemap example_com 3 (Str "https://example.com/sitemap.xml")
                     (snd (findMainSitemap example_com "example.com" []))))).
    + reflexivity.
    + reflexivity.
Defined.

Lemma findMainSitemap_invalid_url_throws_witness :
  startsWith "http//example.com" "http" = true /\
  findMainSitemap nowhere "http//example.com" [] = (Throw TypeError, []) /\
  getLinks nowhere 3 "http//example.com" [] = (Throw TypeError, []).
Proof.
  split; [reflexivity|].
  apply (findMainSitemap_invalid_url_throws nowhere 3 "http//example.com" []).
  reflexivity.
Defined.

(** C8. The bare host [httpbin.org] does not begin with an HTTP(S) scheme,
    yet [findMainSitemap] prepends nothing to it, because it starts with the
    four characters [http]: [new URL] throws and no candidate is checked,
    although [https://httpbin.org] is a valid origin whose [/sitemap.xml]
    answers. *)
Theorem findMainSitemap_host_starting_with_http :
  startsWith "httpbin.org" "http://" = false /\
  startsWith "httpbin.org" "https://" = false /\
  baseUrl "httpbin.org" = "httpbin.org" /\
  findMainSitemap httpbin "httpbin.org" [] = (Throw TypeError, []) /\
  URL_origin httpbin ("https://" ++ "httpbin.org") = Some "https://httpbin.org" /\
  axios_head httpbin ("https://httpbin.org" ++ "/sitemap.xml") = true /\
  fst (findMainSitemap httpbin "https://httpbin.org" []) =
  Normal (Some "https://httpbin.org/sitemap.xml").
Proof. repeat split. Qed.

(** ** The walker *)

Lemma map_items_Forall2 (f : value -> error + value) (entries out : list value) :
  Forall2 (fun entry u => f entry = inr u) entries out ->
  map_items f entries = inr out.
Proof.
  induction 1 as [|entry u entries out Hf _ IH]; simpl.
  - reflexivity.
  - now rewrite Hf, IH.
Qed.

Lemma map_items_length (f : value -> error + value) (entries out : list value) :
  map_items f entries = inr out -> List.length out = List.length entries.
Proof.
  revert out. induction entries as [|x entries IH]; simpl; intros out H.
  - now injection H as <-.
  - destruct (f x); [discriminate|].
    destruct (map_items f entries) as [|ys]; [discriminate|].
    injection H as <-. simpl. f_equal. now apply IH.
Qed.

Lemma has_array_truthy (v : value) (name : string) (entries : list value) :
  get_prop v name = inr (Arr entries) -> truthy v = true.
Proof. destruct v; simpl; congruence. Qed.

Lemma loc0_loc_entry (u : string) : loc0 (loc_entry u) = inr (Str u).
Proof. reflexivity. Qed.

Lemma loc_entries (urls : list string) :
  Forall2 (fun entry u => loc0 entry = inr u) (map loc_entry urls) (map Str urls).
Proof. induction urls; simpl; constructor; auto. Qed.

Lemma urlset_doc_is_urlset (urls : list string) : is_urlset (urlset_doc urls) (map Str urls).
Proof.
  split; [reflexivity|].
  exists (Obj [("url", Arr (map loc_entry urls))]), (map loc_entry urls).
  repeat split. apply loc_entries.
Qed.

Lemma sitemapindex_doc_is_sitemapindex (locations : list string) :
  is_sitemapindex (sitemapindex_doc locations) (map Str locations).
Proof.
  split; [reflexivity|].
  exists (Obj [("sitemap", Arr (map loc_entry locations))]), (map loc_entry locations).
  repeat split. apply loc_entries.
Qed.

Section Walker.

Variable P : Platform.

Section Blocks.

Variable rec : value -> M trace scan.

Lemma walk_index_absent (result : value) (s : frame) :
  get_prop result "sitemapindex" = inr Undefined ->
  walk_index rec result s = (Normal tt, s).
Proof.
  intros H. unfold walk_index, js_and, bind, of_sum. rewrite H. reflexivity.
Qed.

Lemma collect_urlset_absent (result : value) (s : frame) :
  get_prop result "urlset" = inr Undefined ->
  collect_urlset result s = (Normal tt, s).
Proof.
  intros H. unfold collect_urlset, js_and, bind, of_sum. rewrite H. reflexivity.
Qed.

Lemma walk_index_present (result index : value) (entries locations : list value)
      (acc : scan) (t : trace) :
  get_prop result "sitemapindex" = inr index ->
  get_prop index "sitemap" = inr (Arr entries) ->
  map_items loc0 entries = inr locations ->
  walk_index rec result (acc, t) =
  forEach locations (nested rec)
          ({| subSitemaps := (subSitemaps acc ++ locations)%list;
              contentUrls := contentUrls acc |}, t).
Proof.
  intros Hindex Hentries Hmap.
  unfold walk_index, js_and, path2, bind at 1, of_sum.
  rewrite Hindex, (has_array_truthy _ _ _ Hentries), Hentries. cbn [ret truthy].
  unfold bind at 1. cbn [js_map]. rewrite Hmap. cbn [ret].
  reflexivity.
Qed.

Lemma collect_urlset_present (result set : value) (entries urls : list value)
      (acc : scan) (t : trace) :
  get_prop result "urlset" = inr set ->
  get_prop set "url" = inr (Arr entries) ->
  map_items loc0 entries = inr urls ->
  collect_urlset result (acc, t) =
  (Normal tt, ({| subSitemaps := subSitemaps acc;
                  contentUrls := (contentUrls acc ++ urls)%list |}, t)).
Proof.
  intros Hset Hentries Hmap.
  unfold collect_urlset, js_and, path2, bind at 1, of_sum.
  rewrite Hset, (has_array_truthy _ _ _ Hentries), Hentries. cbn [ret truthy].
  unfold bind at 1. cbn [js_map]. rewrite Hmap. cbn [ret].
  reflexivity.
Qed.

End Blocks.

Lemma parseSitemap_step_value (fuel : nat) (url : value) (t : trace) :
  parseSitemap P (S fuel) url t =
  match template P url with
  | inl e => (Throw e, t)
  | inr shown =>
      match try_block P (parseSitemap P fuel) url
                      (no_scan, (t ++ [console_log ("🔎 Parsing " ++ shown ++ "...")])%list) with
      | (Normal _, (acc, t')) => (Normal acc, t')
      | (Throw e, (acc, t')) => (Normal acc, (t' ++ [diagnostic shown e])%list)
      | (Exit code, (_, t')) => (Exit code, t')
      | (Pending, (_, t')) => (Pending, t')
      end
  end.
Proof.
  cbn [parseSitemap]. unfold bind at 1.
  destruct (template P url) as [e|shown]; cbn [of_sum throw ret]; [reflexivity|].
  unfold bind at 1. unfold emit at 1. unfold with_locals, bind, try_catch, no_scan.
  destruct (try_block P (parseSitemap P fuel) url _) as [[r|e|code|] [acc t']];
    reflexivity.
Qed.

Lemma parseSitemap_step (fuel : nat) (url : string) (t : trace) :
  parseSitemap P (S fuel) (Str url) t =
  match try_block P (parseSitemap P fuel) (Str url)
                  (no_scan, (t ++ [console_log ("🔎 Parsing " ++ url ++ "...")])%list) with
  | (Normal _, (acc, t')) => (Normal acc, t')
  | (Throw e, (acc, t')) => (Normal acc, (t' ++ [diagnostic url e])%list)
  | (Exit code, (_, t')) => (Exit code, t')
  | (Pending, (_, t')) => (Pending, t')
  end.
Proof. exact (parseSitemap_step_value fuel (Str url) t). Qed.

Lemma try_block_failure (rec : value -> M trace scan) (url : value) (e : error)
      (acc : scan) (t : trace) :
  failure P url = Some e ->
  try_block P rec url (acc, t) = (Throw e, (acc, (t ++ [GET url])%list)).
Proof.
  unfold failure, try_block, bind at 1, lift, get, bind at 1, emit.
  destruct (axios_get P url) as [data|]; cbn [throw ret].
  - unfold bind at 1, parse.
    destruct (parseStringPromise P data); [discriminate|].
    now intros [= <-].
  - now intros [= <-].
Qed.

Lemma try_block_served (rec : value -> M trace scan) (url result : value)
      (acc : scan) (t : trace) :
  serves P url result ->
  try_block P rec url (acc, t) =
  (walk_index rec result ;; collect_urlset result) (acc, (t ++ [GET url])%list).
Proof.
  intros (data & Hget & Hparse).
  unfold try_block, bind at 1, lift, get, bind at 1, emit. rewrite Hget. cbn [ret].
  unfold bind at 1, parse. rewrite Hparse. reflexivity.
Qed.

Lemma parseSitemap_failure (fuel : nat) (url : string) (e : error) (t : trace) :
  failure P (Str url) = Some e ->
  parseSitemap P (S fuel) (Str url) t =
  (Normal no_scan, (t ++ opening url ++ [diagnostic url e])%list).
Proof.
  intros H. rewrite parseSitemap_step, (try_block_failure _ _ _ _ _ H).
  unfold opening. now rewrite <- !app_assoc.
Qed.

Lemma parseSitemap_urlset (fuel : nat) (url : string) (result : value)
      (urls : list value) (t : trace) :
  serves P (Str url) result ->
  is_urlset result urls ->
  parseSitemap P (S fuel) (Str url) t =
  (Normal {| subSitemaps := []; contentUrls := urls |}, (t ++ opening url)%list).
Proof.
  intros Hserves (Hindex & set & entries & Hset & Hentries & Hlocs).
  rewrite parseSitemap_step, (try_block_served _ _ _ _ _ Hserves).
  unfold bind. rewrite walk_index_absent by exact Hindex.
  rewrite (collect_urlset_present _ _ _ _ _ _ Hset Hentries (map_items_Forall2 _ _ _ Hlocs)).
  unfold opening. now rewrite <- !app_assoc.
Qed.

Lemma forEach_walks (fuel : nat) (locations : list value) (t : trace)
      (rs : list scan) (t' : trace) (acc : scan) :
  walks P fuel locations t rs t' ->
  forEach locations (nested (parseSitemap P fuel)) (acc, t) =
  (Normal tt,
   ({| subSitemaps := (subSitemaps acc ++ flat_map subSitemaps rs)%list;
       contentUrls := (contentUrls acc ++ flat_map contentUrls rs)%list |}, t')).
Proof.
  intros H. revert acc.
  induction H as [t|location rest t r t1 rs t2 Hcall _ IH]; intros acc.
  - cbn. rewrite !app_nil_r. now destruct acc.
  - cbn [forEach]. unfold bind at 1. unfold nested at 1. unfold bind at 1, lift.
    rewrite Hcall. unfold bind, push_subSitemaps, push_contentUrls.
    rewrite IH. cbn [subSitemaps contentUrls flat_map]. now rewrite <- !app_assoc.
Qed.

Lemma parseSitemap_sitemapindex (fuel : nat) (url : string) (result : value)
      (locations : list value) (rs : list scan) (t t' : trace) :
  serves P (Str url) result ->
  is_sitemapindex result locations ->
  walks P fuel locations (t ++ opening url)%list rs t' ->
  parseSitemap P (S fuel) (Str url) t =
  (Normal {| subSitemaps := (locations ++ flat_map subSitemaps rs)%list;
             contentUrls := flat_map contentUrls rs |}, t').
Proof.
  intros Hserves (Hset & index & entries & Hindex & Hentries & Hlocs) Hwalks.
  rewrite parseSitemap_step, (try_block_served _ _ _ _ _ Hserves).
  unfold bind at 1.
  rewrite (walk_index_present _ _ _ _ _ _ _ Hindex Hentries (map_items_Forall2 _ _ _ Hlocs)).
  unfold opening in Hwalks. rewrite <- app_assoc.
  rewrite (forEach_walks _ _ _ _ _ _ Hwalks).
  rewrite collect_urlset_absent by exact Hset. reflexivity.
Qed.

Lemma walks_app (fuel : nat) (l1 l2 : list value) (t t1 t2 : trace) (rs1 rs2 : list scan) :
  walks P fuel l1 t rs1 t1 ->
  walks P fuel l2 t1 rs2 t2 ->
  walks P fuel (l1 ++ l2) t (rs1 ++ rs2) t2.
Proof.
  induction 1; intros H2; cbn [app]; [exact H2|].
  econstructor; eauto.
Qed.

Lemma Forall2_nth_error_l {A B} (R : A -> B -> Prop) (l : list A) (l' : list B) :
  Forall2 R l l' ->
  forall i a, nth_error l i = Some a -> exists b, nth_error l' i = Some b /\ R a b.
Proof.
  induction 1 as [|x y l l' Hxy _ IH]; intros [|i] a; cbn; try discriminate.
  - intros [= <-]. eauto.
  - apply IH.
Qed.

(** C5. For a urlset document (no [sitemapindex] root; [url] children each
    with a [loc]), [parseSitemap] returns no sub-sitemap and, as content URLs,
    the first [loc] of every [url] child: as many values as children, the
    i-th from the i-th child, so a repeated URL is listed once per
    occurrence. *)
Theorem parseSitemap_urlset_document_order
        (fuel : nat) (url : string) (result set : value) (entries urls : list value)
        (t : trace) :
  serves P (Str url) result ->
  get_prop result "sitemapindex" = inr Undefined ->
  get_prop result "urlset" = inr set ->
  get_prop set "url" = inr (Arr entries) ->
  Forall2 (fun entry u => loc0 entry = inr u) entries urls ->
  exists r,
    parseSitemap P (S fuel) (Str url) t = (Normal r, (t ++ opening url)%list) /\
    subSitemaps r = [] /\
    contentUrls r = urls /\
    List.length (contentUrls r) = List.length entries /\
    (forall i entry, nth_error entries i = Some entry ->
       exists u, nth_error (contentUrls r) i = Some u /\ loc0 entry = inr u).
Proof.
  intros Hserves Hindex Hset Hentries Hlocs.
  exists {| subSitemaps := []; contentUrls := urls |}.
  split; [|split; [reflexivity|split; [reflexivity|split]]].
  - apply (parseSitemap_urlset fuel url result urls t Hserves).
    split; [exact Hindex|]. now exists set, entries.
  - cbn [contentUrls]. symmetry. eapply Forall2_length; eauto.
  - cbn [contentUrls]. apply (Forall2_nth_error_l _ _ _ Hlocs).
Qed.

(** C4. When an index lists A then B, A being a urlset of two URLs and B a
    urlset of three, [parseSitemap] returns the sub-sitemaps [A; B] and the
    two URLs of A followed by the three of B.  In general, for an index whose
    nested walks return, the sub-sitemaps are the index's own locations in
    document order followed by those of the nested walks in that order, and
    the content URLs are those of the nested walks in that order. *)
Theorem parseSitemap_parent_before_children
        (fuel : nat) (root A B : string) (index docA docB : value)
        (a1 a2 b1 b2 b3 : value) (t : trace) :
  serves P (Str root) index ->
  is_sitemapindex index [Str A; Str B] ->
  serves P (Str A) docA ->
  is_urlset docA [a1; a2] ->
  serves P (Str B) docB ->
  is_urlset docB [b1; b2; b3] ->
  parseSitemap P (S (S fuel)) (Str root) t =
  (Normal {| subSitemaps := [Str A; Str B]; contentUrls := [a1; a2; b1; b2; b3] |},
   (t ++ opening root ++ opening A ++ opening B)%list) /\
  (forall url result locations rs t',
     serves P (Str url) result ->
     is_sitemapindex result locations ->
     walks P fuel locations (t ++ opening url)%list rs t' ->
     parseSitemap P (S fuel) (Str url) t =
     (Normal {| subSitemaps := (locations ++ flat_map subSitemaps rs)%list;
                contentUrls := flat_map contentUrls rs |}, t')).
Proof.
  intros Hroot Hindex HA HdocA HB HdocB. split.
  - rewrite (parseSitemap_sitemapindex (S fuel) root index [Str A; Str B]
               [{| subSitemaps := []; contentUrls := [a1; a2] |};
                {| subSitemaps := []; contentUrls := [b1; b2; b3] |}]
               t (t ++ opening root ++ opening A ++ opening B)%list Hroot Hindex).
    + reflexivity.
    + econstructor; [apply (parseSitemap_urlset _ _ _ _ _ HA HdocA)|].
      econstructor; [apply (parseSitemap_urlset _ _ _ _ _ HB HdocB)|].
      rewrite <- !app_assoc. constructor.
  - intros url result locations rs t'. apply parseSitemap_sitemapindex.
Qed.

(** C2. A sitemap URL whose fetch or parse fails makes [parseSitemap] return
    normally with two empty lists, after the diagnostic of its own [catch];
    and in an index that lists such a URL among others, the walk goes on:
    the siblings before and after it are walked and their lists are in the
    result of the index. *)
Theorem parseSitemap_failure_is_local
        (fuel : nat) (url : string) (e : error) (t : trace) :
  failure P (Str url) = Some e ->
  parseSitemap P (S fuel) (Str url) t =
  (Normal no_scan, (t ++ opening url ++ [diagnostic url e])%list) /\
  (forall parent result before after rs_before rs_after t0 t1 t2,
     serves P (Str parent) result ->
     is_sitemapindex result (before ++ Str url :: after) ->
     walks P (S fuel) before (t0 ++ opening parent)%list rs_before t1 ->
     walks P (S fuel) after (t1 ++ opening url ++ [diagnostic url e])%list rs_after t2 ->
     parseSitemap P (S (S fuel)) (Str parent) t0 =
     (Normal {| subSitemaps := ((before ++ Str url :: after)
                                  ++ flat_map subSitemaps rs_before
                                  ++ flat_map subSitemaps rs_after)%list;
                contentUrls := (flat_map contentUrls rs_before
                                  ++ flat_map contentUrls rs_after)%list |}, t2)).
Proof.
  intros Hfail. split; [now apply parseSitemap_failure|].
  intros parent result before after rs_before rs_after t0 t1 t2 Hserves Hindex Hbefore Hafter.
  rewrite (parseSitemap_sitemapindex (S fuel) parent result (before ++ Str url :: after)
             (rs_before ++ no_scan :: rs_after) t0 t2 Hserves Hindex).
  - rewrite !flat_map_app. reflexivity.
  - apply (walks_app _ _ _ _ _ _ _ _ Hbefore).
    econstructor; [apply (parseSitemap_failure _ _ e _ Hfail) | exact Hafter].
Qed.

End Walker.

Lemma parseSitemap_urlset_document_order_witness :
  exists r,
    parseSitemap twice 1 (Str "https://example.com/sitemap.xml") [] =
    (Normal r, ([] ++ opening "https://example.com/sitemap.xml")%list) /\
    subSitemaps r = [] /\
    contentUrls r =
      [Str "https://example.com/a"; Str "https://example.com/b"; Str "https://example.com/a"] /\
    List.length (contentUrls r) = 3 /\
    (forall i entry,
       nth_error (map loc_entry ["https://example.com/a"; "https://example.com/b";
                                "https://example.com/a"]) i = Some entry ->
       exists u, nth_error (contentUrls r) i = Some u /\ loc0 entry = inr u).
Proof.
  apply (parseSitemap_urlset_document_order twice 0 "https://example.com/sitemap.xml"
           (urlset_doc ["https://example.com/a"; "https://example.com/b";
                        "https://example.com/a"])
           (Obj [("url", Arr (map loc_entry ["https://example.com/a"; "https://example.com/b";
                                             "https://example.com/a"]))])
           (map loc_entry ["https://example.com/a"; "https://example.com/b";
                           "https://example.com/a"])
           (map Str ["https://example.com/a"; "https://example.com/b";
                     "https://example.com/a"])
           []).
  - eexists. split; reflexivity.
  - reflexivity.
  - reflexivity.
  - reflexivity.
  - apply loc_entries.
Defined.

Lemma parseSitemap_parent_before_children_witness :
  parseSitemap two_children 2 (Str "https://shop.example/sitemap_index.xml") [] =
  (Normal {| subSitemaps := [Str "https://shop.example/a.xml"; Str "https://shop.example/b.xml"];
             contentUrls := [Str "https://shop.example/a1"; Str "https://shop.example/a2";
                             Str "https://shop.example/b1"; Str "https://shop.example/b2";
                             Str "https://shop.example/b3"] |},
   ([] ++ opening "https://shop.example/sitemap_index.xml"
       ++ opening "https://shop.example/a.xml" ++ opening "https://shop.example/b.xml")%list).
Proof.
  apply (parseSitemap_parent_before_children two_children 0
           "https://shop.example/sitemap_index.xml"
           "https://shop.example/a.xml" "https://shop.example/b.xml"
           (sitemapindex_doc ["https://shop.example/a.xml"; "https://shop.example/b.xml"])
           (urlset_doc ["https://shop.example/a1"; "https://shop.example/a2"])
           (urlset_doc ["https://shop.example/b1"; "https://shop.example/b2";
                        "https://shop.example/b3"])).
  - eexists. split; reflexivity.
  - apply (sitemapindex_doc_is_sitemapindex
             ["https://shop.example/a.xml"; "https://shop.example/b.xml"]).
  - eexists. split; reflexivity.
  - apply (urlset_doc_is_urlset ["https://shop.example/a1"; "https://shop.example/a2"]).
  - eexists. split; reflexivity.
  - apply (urlset_doc_is_urlset ["https://shop.example/b1"; "https://shop.example/b2";
                                 "https://shop.example/b3"]).
Defined.

Lemma parseSitemap_failure_is_local_witness :
  failure one_broken (Str "https://news.example/2024.xml") = Some AxiosError /\
  fst (parseSitemap one_broken 1 (Str "https://news.example/2024.xml") []) = Normal no_scan /\
  fst (parseSitemap one_broken 2 (Str "https://news.example/sitemap.xml") []) =
  Normal {| subSitemaps := [Str "https://news.example/2023.xml";
                            Str "https://news.example/2024.xml";
                            Str "https://news.example/2025.xml"];
            contentUrls := [Str "https://news.example/old"; Str "https://news.example/new"] |}.
Proof.
  split; [reflexivity|].
  destruct (parseSitemap_failure_is_local one_broken 0 "https://news.example/2024.xml"
              AxiosError [] eq_refl) as [Hnode Hsiblings].
  split; [now rewrite Hnode|].
  rewrite (Hsiblings "https://news.example/sitemap.xml"
             (sitemapindex_doc ["https://news.example/2023.xml"; "https://news.example/2024.xml";
                                "https://news.example/2025.xml"])
             [Str "https://news.example/2023.xml"] [Str "https://news.example/2025.xml"]
             [{| subSitemaps := []; contentUrls := [Str "https://news.example/old"] |}]
             [{| subSitemaps := []; contentUrls := [Str "https://news.example/new"] |}]
             []
             (opening "https://news.example/sitemap.xml"
                ++ opening "https://news.example/2023.xml")%list
             (opening "https://news.example/sitemap.xml" ++ opening "https://news.example/2023.xml"
                ++ opening "https://news.example/2024.xml"
                ++ [diagnostic "https://news.example/2024.xml" AxiosError]
                ++ opening "https://news.example/2025.xml")%list).
  - reflexivity.
  - eexists. split; reflexivity.
  - apply (sitemapindex_doc_is_sitemapindex
             ["https://news.example/2023.xml"; "https://news.example/2024.xml";
              "https://news.example/2025.xml"]).
  - econstructor; [reflexivity | constructor].
  - econstructor; [reflexivity | constructor].
Defined.

(** ** Which completions the walker can have *)

Lemma settled_within {A} (c : completion A) : within false false c <-> settled c.
Proof. destruct c; cbn; intuition discriminate. Qed.

Section Totality.

Variable P : Platform.
Variables exits pendings : bool.

Section Blocks.

Variable rec : value -> M trace scan.

Lemma forEach_nested_within (locations : list value) :
  (forall location, In location locations ->
     forall t, within exits pendings (fst (rec location t))) ->
  forall s, within exits pendings (fst (forEach locations (nested rec) s)).
Proof.
  induction locations as [|location rest IH]; intros Hrec [acc t]; cbn [forEach].
  - exact I.
  - unfold bind at 1. unfold nested at 1. unfold bind at 1. unfold lift.
    pose proof (Hrec location (or_introl eq_refl) t) as Hcall.
    destruct (rec location t) as [[r|e|code|] t1]; cbn in Hcall |- *; auto.
    unfold bind, push_subSitemaps, push_contentUrls. apply IH.
    intros; apply Hrec; now right.
Qed.

Lemma walk_index_within (result : value) :
  (forall location, In location (locations_of result) ->
     forall t, within exits pendings (fst (rec location t))) ->
  forall s, within exits pendings (fst (walk_index rec result s)).
Proof.
  unfold walk_index, locations_of. intros Hrec [acc t].
  unfold bind at 1.
  destruct (js_and _ _) as [e|isIndex]; cbn [of_sum throw ret fst]; [exact I|].
  destruct (truthy isIndex); [|exact I].
  unfold bind at 1.
  destruct (path2 result "sitemapindex" "sitemap") as [e|entries];
    cbn [of_sum throw ret fst]; [exact I|].
  destruct (js_map loc0 entries) as [e|locations]; cbn [of_sum throw ret fst]; [exact I|].
  unfold bind, push_subSitemaps. now apply forEach_nested_within.
Qed.

Lemma collect_urlset_settled (result : value) (s : frame) :
  settled (fst (collect_urlset result s)).
Proof.
  unfold collect_urlset. destruct s as [acc t]. unfold bind at 1.
  destruct (js_and _ _) as [e|isUrlset]; cbn [of_sum throw ret fst]; [exact I|].
  destruct (truthy isUrlset); [|exact I].
  unfold bind, push_contentUrls.
  destruct (path2 result "urlset" "url") as [e|entries]; cbn [of_sum throw ret fst]; [exact I|].
  destruct (js_map loc0 entries) as [e|urls]; cbn [of_sum throw ret fst]; exact I.
Qed.

Lemma try_block_within (url : value) :
  (forall location, In location (sitemapLocations P url) ->
     forall t, within exits pendings (fst (rec location t))) ->
  forall s, within exits pendings (fst (try_block P rec url s)).
Proof.
  unfold sitemapLocations, try_block. intros Hrec [acc t].
  unfold bind at 1, lift, get, bind at 1, emit.
  destruct (axios_get P url) as [data|]; cbn [throw ret fst]; [|exact I].
  unfold bind at 1, parse.
  destruct (parseStringPromise P data) as [result|]; cbn [throw ret fst]; [|exact I].
  unfold bind.
  pose proof (walk_index_within result Hrec (acc, (t ++ [GET url])%list)) as Hwalk.
  destruct (walk_index rec result _) as [[[]|e|code|] s']; cbn in Hwalk |- *; auto.
  pose proof (collect_urlset_settled result s') as Hset.
  destruct (collect_urlset result s') as [[[]|e|code|] s'']; cbn in Hset |- *; tauto.
Qed.

End Blocks.

Lemma parseSitemap_within (fuel : nat) (url : value) (t : trace) :
  (forall location, In location (sitemapLocations P url) ->
     forall t0, within exits pendings (fst (parseSitemap P fuel location t0))) ->
  within exits pendings (fst (parseSitemap P (S fuel) url t)).
Proof.
  intros Hrec. rewrite parseSitemap_step_value.
  destruct (template P url) as [e|shown]; [exact I|].
  pose proof (try_block_within (parseSitemap P fuel) url Hrec
                (no_scan, (t ++ [console_log ("🔎 Parsing " ++ shown ++ "...")])%list)) as H.
  destruct (try_block P (parseSitemap P fuel) url _) as [[[]|e|code|] [acc t']];
    cbn in H |- *; auto.
Qed.

End Totality.

Section Termination.

Variable P : Platform.

Lemma parseSitemap_no_exit (fuel : nat) :
  forall url t, within false true (fst (parseSitemap P fuel url t)).
Proof.
  induction fuel as [|fuel IH]; intros url t.
  - reflexivity.
  - apply parseSitemap_within. intros location _ t0. apply IH.
Qed.

Lemma parseSitemap_settles (rank : value -> nat) :
  (forall url location, In location (sitemapLocations P url) -> rank location < rank url) ->
  forall fuel url t, rank url < fuel -> settled (fst (parseSitemap P fuel url t)).
Proof.
  intros Hrank. induction fuel as [|fuel IH]; intros url t Hlt; [lia|].
  apply settled_within, parseSitemap_within.
  intros location Hin t0. apply settled_within, IH.
  specialize (Hrank url location Hin). lia.
Qed.

Lemma parseSitemap_string_completion (fuel : nat) (url : string) (t : trace) :
  match fst (parseSitemap P fuel (Str url) t) with
  | Normal _ | Pending => True
  | Throw _ | Exit _ => False
  end.
Proof.
  destruct fuel as [|fuel]; [exact I|].
  rewrite parseSitemap_step.
  pose proof (try_block_within P false true (parseSitemap P fuel) (Str url)
                (fun location _ t0 => parseSitemap_no_exit fuel location t0)
                (no_scan, (t ++ [console_log ("🔎 Parsing " ++ url ++ "...")])%list)) as H.
  destruct (try_block P (parseSitemap P fuel) (Str url) _) as [[[]|e|code|] [acc t']];
    cbn in H |- *; auto. discriminate.
Qed.

Lemma parseSitemap_string_resolves (fuel : nat) (url : string) (t : trace) :
  settled (fst (parseSitemap P fuel (Str url) t)) ->
  exists r t', parseSitemap P fuel (Str url) t = (Normal r, t').
Proof.
  pose proof (parseSitemap_string_completion fuel url t) as H.
  destruct (parseSitemap P fuel (Str url) t) as [[r|e|code|] t']; cbn in H |- *;
    try contradiction; eauto.
Qed.

(** An index whose first location never settles never settles. *)
Lemma parseSitemap_first_pending (fuel : nat) (url : string) (result first : value)
      (rest : list value) :
  serves P (Str url) result ->
  is_sitemapindex result (first :: rest) ->
  (forall t, fst (parseSitemap P fuel first t) = Pending) ->
  forall t, fst (parseSitemap P (S fuel) (Str url) t) = Pending.
Proof.
  intros Hserves (Hset & index & entries & Hindex & Hentries & Hlocs) Hfirst t.
  rewrite parseSitemap_step, (try_block_served _ _ _ _ _ _ Hserves).
  unfold bind at 1.
  rewrite (walk_index_present _ _ _ _ _ _ _ Hindex Hentries (map_items_Forall2 _ _ _ Hlocs)).
  cbn [forEach]. unfold bind at 1. unfold nested at 1. unfold bind at 1, lift.
  match goal with |- context [parseSitemap P fuel first ?t0] => specialize (Hfirst t0);
    destruct (parseSitemap P fuel first t0) as [c t1] end.
  cbn in Hfirst. subst c. reflexivity.
Qed.

Lemma forEach_nested_pending (rec : value -> M trace scan) (locations : list value) :
  (forall location, In location locations ->
     forall t, match fst (rec location t) with
               | Normal _ | Pending => True
               | Throw _ | Exit _ => False
               end) ->
  (exists location, In location locations /\ forall t, fst (rec location t) = Pending) ->
  forall s, fst (forEach locations (nested rec) s) = Pending.
Proof.
  induction locations as [|location rest IH]; intros Hrec (stuck & Hin & Hstuck) [acc t].
  - contradiction.
  - cbn [forEach]. unfold bind at 1. unfold nested at 1. unfold bind at 1, lift.
    pose proof (Hrec location (or_introl eq_refl) t) as Hcall.
    destruct Hin as [->|Hin].
    + specialize (Hstuck t). destruct (rec stuck t) as [c t1]. cbn in Hstuck. now subst c.
    + destruct (rec location t) as [[r|e|code|] t1]; cbn in Hcall; try contradiction;
        [|reflexivity].
      unfold bind, push_subSitemaps, push_contentUrls. apply IH.
      * intros l Hl. apply Hrec. now right.
      * now exists stuck.
Qed.

(** An index of string locations that lists its own URL never settles. *)
Lemma parseSitemap_self_listing_pending (url : string) (result : value)
      (locations : list value) :
  serves P (Str url) result ->
  is_sitemapindex result locations ->
  In (Str url) locations ->
  (forall location, In location locations -> exists s, location = Str s) ->
  forall fuel t, fst (parseSitemap P fuel (Str url) t) = Pending.
Proof.
  intros Hserves Hdoc Hself Hstrings.
  destruct Hdoc as (Hset & index & entries & Hindex & Hentries & Hlocs).
  induction fuel as [|fuel IH]; intros t; [reflexivity|].
  rewrite parseSitemap_step, (try_block_served _ _ _ _ _ _ Hserves).
  unfold bind at 1.
  rewrite (walk_index_present _ _ _ _ _ _ _ Hindex Hentries (map_items_Forall2 _ _ _ Hlocs)).
  match goal with |- context [forEach locations ?f ?s0] =>
    pose proof (forEach_nested_pending (parseSitemap P fuel) locations) as Hloop;
    specialize (fun H1 H2 => Hloop H1 H2 s0);
    destruct (forEach locations f s0) as [c s1] end.
  cbn [fst] in Hloop. rewrite Hloop.
  - destruct s1. reflexivity.
  - intros location Hin t0. destruct (Hstrings location Hin) as (s & ->).
    apply parseSitemap_string_completion.
  - exists (Str url). split; [exact Hself | exact IH].
Qed.

End Termination.

Lemma self_reference_pending (fuel : nat) :
  forall t, fst (parseSitemap self_reference fuel (Str "https://loop.example/sitemap.xml") t)
            = Pending.
Proof.
  induction fuel as [|fuel IH]; [reflexivity|].
  apply (parseSitemap_first_pending self_reference fuel "https://loop.example/sitemap.xml"
           (sitemapindex_doc ["https://loop.example/sitemap.xml"])
           (Str "https://loop.example/sitemap.xml") []).
  - eexists. split; reflexivity.
  - apply (sitemapindex_doc_is_sitemapindex ["https://loop.example/sitemap.xml"]).
  - exact IH.
Qed.

Lemma two_cycle_pending (fuel : nat) :
  forall t,
    fst (parseSitemap two_cycle fuel (Str "https://ring.example/sitemap.xml") t) = Pending /\
    fst (parseSitemap two_cycle fuel (Str "https://ring.example/more.xml") t) = Pending.
Proof.
  induction fuel as [|fuel IH]; [split; reflexivity|].
  intros t. split.
  - apply (parseSitemap_first_pending two_cycle fuel "https://ring.example/sitemap.xml"
             (sitemapindex_doc ["https://ring.example/more.xml"])
             (Str "https://ring.example/more.xml") []).
    + eexists. split; reflexivity.
    + apply (sitemapindex_doc_is_sitemapindex ["https://ring.example/more.xml"]).
    + intros t0. apply IH.
  - apply (parseSitemap_first_pending two_cycle fuel "https://ring.example/more.xml"
             (sitemapindex_doc ["https://ring.example/sitemap.xml"])
             (Str "https://ring.example/sitemap.xml") []).
    + eexists. split; reflexivity.
    + apply (sitemapindex_doc_is_sitemapindex ["https://ring.example/sitemap.xml"]).
    + intros t0. apply IH.
Qed.

Lemma two_children_well_founded (url location : value) :
  In location (sitemapLocations two_children url) ->
  depth_two_children location < depth_two_children url.
Proof.
  destruct url as [| |s| |]; try contradiction.
  unfold sitemapLocations. cbn [two_children site axios_get find fst snd option_map].
  destruct (String.eqb_spec "https://shop.example/sitemap_index.xml" s) as [<-|_].
  { cbn. intros [<-|[<-|[]]]; cbn; lia. }
  destruct (String.eqb_spec "https://shop.example/a.xml" s) as [<-|_]; [contradiction|].
  destruct (String.eqb_spec "https://shop.example/b.xml" s) as [<-|_]; contradiction.
Qed.

Section WalkerCompletions.

Variable P : Platform.

(** C7 (as the code has it).  [parseSitemap] carries no depth bound and no
    set of seen URLs.  It terminates on every sitemap tree that is
    well-founded: when some measure decreases from each URL to the locations
    of the index served there, a walk with more fuel than the measure of its
    URL settles, and from a string URL it returns its two lists.  On an index
    of string locations that lists its own URL the walk has not settled after
    any number of nested calls. *)
Theorem parseSitemap_terminates_when_well_founded
        (rank : value -> nat) (fuel : nat) (url : value) (t : trace) :
  ((forall u location, In location (sitemapLocations P u) -> rank location < rank u) ->
   rank url < fuel ->
   settled (fst (parseSitemap P fuel url t)) /\
   (forall s, url = Str s -> exists r t', parseSitemap P fuel url t = (Normal r, t'))) /\
  (forall s result locations,
     url = Str s ->
     serves P url result ->
     is_sitemapindex result locations ->
     In url locations ->
     (forall location, In location locations -> exists s', location = Str s') ->
     fst (parseSitemap P fuel url t) = Pending).
Proof.
  split.
  - intros Hrank Hfuel.
    pose proof (parseSitemap_settles P rank Hrank fuel url t Hfuel) as Hsettled.
    split; [exact Hsettled|].
    intros s ->. now apply parseSitemap_string_resolves.
  - intros s result locations -> Hserves Hdoc Hself Hstrings.
    now apply (parseSitemap_self_listing_pending P s result locations).
Qed.

(** C10 (as the code has it).  Called on a string, [parseSitemap] never
    rejects and never ends the process, whatever the network and the parser
    answer: every error of its body is caught by its own handler.  It
    resolves with its two lists as soon as the nested walks it starts settle,
    so at once when it starts none (failed fetch, body that is not XML,
    unrecognized shape, entry without [loc]); a document of neither
    recognized shape gives two empty lists. *)
Theorem parseSitemap_never_rejects (fuel : nat) (url : string) (t : trace) :
  (forall e, fst (parseSitemap P fuel (Str url) t) <> Throw e) /\
  (forall code, fst (parseSitemap P fuel (Str url) t) <> Exit code) /\
  ((forall location, In location (sitemapLocations P (Str url)) ->
      forall t0, settled (fst (parseSitemap P fuel location t0))) ->
   exists r t', parseSitemap P (S fuel) (Str url) t = (Normal r, t')) /\
  (forall result,
     serves P (Str url) result ->
     recognized result = false ->
     exists t', parseSitemap P (S fuel) (Str url) t = (Normal no_scan, t')).
Proof.
  pose proof (parseSitemap_string_completion P fuel url t) as Hc.
  split; [|split; [|split]].
  - intros e He. now rewrite He in Hc.
  - intros code He. now rewrite He in Hc.
  - intros Hnested. apply parseSitemap_string_resolves.
    apply settled_within, parseSitemap_within.
    intros location Hin t0. now apply settled_within, Hnested.
  - intros result Hserves Hshape.
    apply orb_false_elim in Hshape. destruct Hshape as [Hindex Hset].
    rewrite parseSitemap_step, (try_block_served _ _ _ _ _ _ Hserves).
    unfold bind at 1. unfold walk_index, bind at 1.
    destruct (js_and (get_prop result "sitemapindex") _) as [e|isIndex];
      cbn [of_sum throw ret]; [eauto|].
    rewrite Hindex. cbn [ret].
    unfold collect_urlset, bind at 1.
    destruct (js_and (get_prop result "urlset") _) as [e|isUrlset];
      cbn [of_sum throw ret]; [eauto|].
    rewrite Hset. cbn [ret]. eauto.
Qed.

End WalkerCompletions.

(** C7 as stated fails: the walk from an index that lists itself has not
    settled after any number of nested calls. *)
Lemma parseSitemap_self_reference_never_settles :
  ~ exists fuel,
      settled (fst (parseSitemap self_reference fuel
                      (Str "https://loop.example/sitemap.xml") [])).
Proof.
  intros (fuel & H). now rewrite self_reference_pending in H.
Qed.

Lemma parseSitemap_terminates_when_well_founded_witness :
  (settled (fst (parseSitemap two_children 2
                   (Str "https://shop.example/sitemap_index.xml") [])) /\
   (forall s, Str "https://shop.example/sitemap_index.xml" = Str s ->
      exists r t', parseSitemap two_children 2 (Str "https://shop.example/sitemap_index.xml") []
                   = (Normal r, t'))) /\
  fst (parseSitemap self_reference 7 (Str "https://loop.example/sitemap.xml") []) = Pending.
Proof.
  split.
  - apply (proj1 (parseSitemap_terminates_when_well_founded two_children depth_two_children 2
                    (Str "https://shop.example/sitemap_index.xml") [])).
    + exact two_children_well_founded.
    + cbn. lia.
  - apply (proj2 (parseSitemap_terminates_when_well_founded self_reference (fun _ => 0) 7
                    (Str "https://loop.example/sitemap.xml") [])
             "https://loop.example/sitemap.xml"
             (sitemapindex_doc ["https://loop.example/sitemap.xml"])
             [Str "https://loop.example/sitemap.xml"]).
    + reflexivity.
    + eexists. split; reflexivity.
    + apply (sitemapindex_doc_is_sitemapindex ["https://loop.example/sitemap.xml"]).
    + now left.
    + intros location [<-|[]]. now eexists.
Defined.

(** C10 as stated fails: on two indexes that list each other the promise of
    [parseSitemap] is never fulfilled. *)
Lemma parseSitemap_cycle_never_resolves :
  ~ exists fuel r t',
      parseSitemap two_cycle fuel (Str "https://ring.example/sitemap.xml") [] = (Normal r, t').
Proof.
  intros (fuel & r & t' & H).
  pose proof (proj1 (two_cycle_pending fuel [])) as Hp. rewrite H in Hp. discriminate.
Qed.

Lemma parseSitemap_never_rejects_witness :
  (exists r t', parseSitemap malformed 1 (Str "https://odd.example/sitemap.xml") []
                = (Normal r, t')) /\
  (exists t', parseSitemap malformed 1 (Str "https://odd.example/feed.xml") []
              = (Normal no_scan, t')) /\
  (exists r t', parseSitemap malformed 1 (Str "https://odd.example/index.html") []
                = (Normal r, t')).
Proof.
  split; [|split].
  - apply (proj1 (proj2 (proj2 (parseSitemap_never_rejects malformed 0
                                  "https://odd.example/sitemap.xml" [])))).
    intros location Hin. cbn in Hin. contradiction.
  - apply (proj2 (proj2 (proj2 (parseSitemap_never_rejects malformed 0
                                  "https://odd.example/feed.xml" [])))
             (Obj [("rss", Obj [("channel", Arr [Str "news"])])])).
    + eexists. split; reflexivity.
    + reflexivity.
  - apply (proj1 (proj2 (proj2 (parseSitemap_never_rejects malformed 0
                                  "https://odd.example/index.html" [])))).
    intros location Hin. cbn in Hin. contradiction.
Defined.

(** ** The command line *)

Section CommandLine.

Variable P : Platform.

(** C3 (as the code has it).  Without a domain or without a mode argument
    (absent or empty), the process prints the usage error and exits with
    status 1 before any request.  A mode other than [--main], [--subs] and
    [--urls] is only rejected at the end of [cliMain]: the locator runs
    first, the process exits with status 1 if no sitemap is found, and when
    one is found and its walk returns, the process prints the
    invalid-argument error and exits with status 1. *)
Theorem cliMain_usage_errors (fuel : nat) (argv : list string) (t : trace) :
  (not_string (nth_error argv 2) || not_string (nth_error argv 3) = true ->
   main P fuel argv t = (Exit 1, (t ++ usage_error)%list)) /\
  (forall domain argument,
     nth_error argv 2 = Some domain ->
     nth_error argv 3 = Some argument ->
     domain <> "" ->
     argument <> "" ->
     is_mode argument = false ->
     (forall t1,
        findMainSitemap P domain t = (Normal None, t1) ->
        main P fuel argv t = (Exit 1, t1)) /\
     (forall u t1 r t2,
        findMainSitemap P domain t = (Normal (Some u), t1) ->
        parseSitemap P fuel (Str u) t1 = (Normal r, t2) ->
        main P fuel argv t = (Exit 1, (t2 ++ [invalid_argument argument])%list))).
Proof.
  split.
  - intros Hmissing. unfold main, try_catch, cliMain, bind at 1. rewrite Hmissing.
    unfold bind, emit, process_exit, usage_error. now rewrite <- app_assoc.
  - intros domain argument Hdomain Hargument Hd Ha Hmode.
    apply String.eqb_neq in Hd, Ha.
    unfold is_mode in Hmode. cbn [existsb] in Hmode.
    apply orb_false_elim in Hmode. destruct Hmode as [Hmain Hmode].
    apply orb_false_elim in Hmode. destruct Hmode as [Hsubs Hmode].
    apply orb_false_elim in Hmode. destruct Hmode as [Hurls _].
    assert (Hstart : forall k : unit -> M trace unit,
               ((if not_string (nth_error argv 2) || not_string (nth_error argv 3)
                 then (emit (console_error "❌ Please provide a domain and an argument." None) ;;
                       emit (console_log
                               "Usage: node sitemap-scan.js example.com [--main|--subs|--urls]") ;;
                       process_exit 1)
                 else ret tt) ;; k tt) t = k tt t).
    { intros k. rewrite Hdomain, Hargument. cbn [not_string]. rewrite Hd, Ha. reflexivity. }
    split.
    + intros t1 Hfind. unfold main, try_catch, cliMain.
      rewrite (Hstart (fun _ => _)). rewrite Hdomain. cbn [argv_string].
      unfold bind at 1. rewrite Hfind. reflexivity.
    + intros u t1 r t2 Hfind Hwalk. unfold main, try_catch, cliMain.
      rewrite (Hstart (fun _ => _)). rewrite Hdomain, Hargument. cbn [argv_string].
      unfold bind at 1. rewrite Hfind.
      destruct (findMainSitemap_some _ _ _ _ _ Hfind) as (o & q & _ & Hq & Hu).
      assert (Hne : String.eqb u "" = false).
      { apply String.eqb_neq. subst u. apply append_nonempty. now apply sitemapPaths_nonempty. }
      cbn [not_string]. rewrite Hne. unfold bind at 1. cbn [ret].
      rewrite Hmain. unfold bind at 1. cbn [url_value]. rewrite Hwalk.
      rewrite Hsubs, Hurls. reflexivity.
Qed.

End CommandLine.

(** C3 as stated fails: with the mode [--foo] the process exits with status 1
    only after one HEAD and two GET requests. *)
Lemma cliMain_unknown_mode_after_requests :
  is_mode "--foo" = false /\
  exists t,
    main example_com 3 ["node"; "cli.js"; "example.com"; "--foo"] [] = (Exit 1, t) /\
    requests t = [HEAD "https://example.com/sitemap.xml";
                  GET (Str "https://example.com/sitemap.xml");
                  GET (Str "https://example.com/sitemap-posts.xml")].
Proof.
  split; [reflexivity|]. eexists. split; reflexivity.
Qed.

Lemma cliMain_usage_errors_witness :
  main example_com 3 ["node"; "cli.js"; "example.com"] [] = (Exit 1, ([] ++ usage_error)%list) /\
  main nowhere 3 ["node"; "cli.js"; "example.com"; "--foo"] [] =
  (Exit 1, snd (findMainSitemap nowhere "example.com" [])) /\
  main example_com 3 ["node"; "cli.js"; "example.com"; "--foo"] [] =
  (Exit 1,
   (snd (parseSitemap example_com 3 (Str "https://example.com/sitemap.xml")
           (snd (findMainSitemap example_com "example.com" [])))
      ++ [invalid_argument "--foo"])%list).
Proof.
  split; [|split].
  - apply (proj1 (cliMain_usage_errors example_com 3 ["node"; "cli.js"; "example.com"] [])).
    reflexivity.
  - apply (proj1 (proj2 (cliMain_usage_errors nowhere 3
                           ["node"; "cli.js"; "example.com"; "--foo"] [])
                    "example.com" "--foo" eq_refl eq_refl
                    ltac:(discriminate) ltac:(discriminate) eq_refl)).
    reflexivity.
  - apply (proj2 (proj2 (cliMain_usage_errors example_com 3
                           ["node"; "cli.js"; "example.com"; "--foo"] [])
                    "example.com" "--foo" eq_refl eq_refl
                    ltac:(discriminate) ltac:(discriminate) eq_refl)
             "https://example.com/sitemap.xml"
             (snd (findMainSitemap example_com "example.com" []))
             {| subSitemaps := [Str "https://example.com/sitemap-posts.xml"];
                contentUrls := [Str "https://example.com/p1"; Str "https://example.com/p2"] |}
             (snd (parseSitemap example_com 3 (Str "https://example.com/sitemap.xml")
                     (snd (findMainSitemap example_com "example.com" []))))).
    + reflexivity.
    + reflexivity.
Defined.

(** ** The scenarios of the specification *)

Example scenario_main :
  fst (main example_com 3 ["node"; "cli.js"; "example.com"; "--main"] []) = Normal tt /\
  In (console_log "https://example.com/sitemap.xml")
     (snd (main example_com 3 ["node"; "cli.js"; "example.com"; "--main"] [])).
Proof. split; [reflexivity|]. cbn. repeat first [left; reflexivity | right]. Qed.

Example scenario_urls :
  getLinks example_com 3 "example.com" [] =
  (Normal [Str "https://example.com/p1"; Str "https://example.com/p2"],
   [console_log "🔎 Searching for a sitemap on https://example.com...";
    HEAD "https://example.com/sitemap.xml";
    console_log "✅ Found main sitemap at: https://example.com/sitemap.xml";
    console_log "🔎 Parsing https://example.com/sitemap.xml...";
    GET (Str "https://example.com/sitemap.xml");
    console_log "🔎 Parsing https://example.com/sitemap-posts.xml...";
    GET (Str "https://example.com/sitemap-posts.xml")]).
Proof. reflexivity. Qed.

Example scenario_not_found :
  main nowhere 3 ["node"; "cli.js"; "example.com"; "--urls"] [] =
  (Exit 1,
   (console_log "🔎 Searching for a sitemap on https://example.com..."
      :: checks "https://example.com" sitemapPaths
      ++ [console_log "❌ Could not find a sitemap for example.com."])%list).
Proof. reflexivity. Qed.

Example invalid_domain_exits_zero :
  main nowhere 3 ["node"; "cli.js"; "http//example.com"; "--foo"] [] =
  (Normal tt, [console_error "" (Some TypeError)]).
Proof. reflexivity. Qed.

Example entry_without_loc :
  parseSitemap malformed 1 (Str "https://odd.example/sitemap.xml") [] =
  (Normal no_scan,
   (opening "https://odd.example/sitemap.xml"
      ++ [diagnostic "https://odd.example/sitemap.xml" TypeError])%list).
Proof. reflexivity. Qed.

(** A location that is not a string and cannot be put in a template literal
    makes the nested call reject before its own [try]; the rejection is
    caught by the parent, whose loop ends there: the sibling after it is not
    walked. *)
Example location_without_toString :
  parseSitemap attributed_loc 2 (Str "https://attr.example/sitemap.xml") [] =
  (Normal {| subSitemaps := [Obj [("_", Str "https://attr.example/a.xml");
                                  ("$", Obj [("hreflang", Str "en")])];
                             Str "https://attr.example/b.xml"];
             contentUrls := [] |},
   (opening "https://attr.example/sitemap.xml"
      ++ [diagnostic "https://attr.example/sitemap.xml" TypeError])%list).
Proof. reflexivity. Qed.

(** * More of the script *)

(** ** The locator, whatever answers *)

Section LocatorAnswers.

Variable P : Platform.

Lemma first_reachable (origin : string) (paths : list string) :
  (exists pre p post,
      paths = (pre ++ p :: post)%list /\
      (forall q, In q pre -> axios_head P (origin ++ q) = false) /\
      axios_head P (origin ++ p) = true) \/
  (forall q, In q paths -> axios_head P (origin ++ q) = false).
Proof.
  induction paths as [|x paths IH].
  - right. intros q [].
  - destruct (axios_head P (origin ++ x)) eqn:Hx.
    + left. exists [], x, paths. repeat split; [intros q []|exact Hx].
    + destruct IH as [(pre & p & post & -> & Hpre & Hp)|Hall].
      * left. exists (x :: pre), p, post. repeat split; [|exact Hp].
        intros q [<-|Hq]; auto.
      * right. intros q [<-|Hq]; auto.
Qed.

(** X1. The candidates have a priority: when the candidates before [p] in
    the list fail and [p] answers, [findMainSitemap] returns origin + [p],
    whatever the candidates after [p] would answer, after one check per
    candidate up to [p]. *)
Theorem findMainSitemap_first_reachable
        (domain origin : string) (pre : list string) (p : string) (post : list string)
        (t : trace) :
  URL_origin P (baseUrl domain) = Some origin ->
  sitemapPaths = (pre ++ p :: post)%list ->
  (forall q, In q pre -> axios_head P (origin ++ q) = false) ->
  axios_head P (origin ++ p) = true ->
  findMainSitemap P domain t =
  (Normal (Some (origin ++ p)),
   (t ++ console_log ("🔎 Searching for a sitemap on " ++ origin ++ "...")
      :: checks origin pre
      ++ [HEAD (origin ++ p); console_log ("✅ Found main sitemap at: " ++ origin ++ p)])%list).
Proof.
  intros Horigin Hsplit Hpre Hp.
  unfold findMainSitemap, new_URL_origin, bind at 1. rewrite Horigin. unfold ret.
  unfold bind at 1. unfold emit. rewrite Hsplit.
  rewrite (probe_found P domain origin pre p post _ Hpre Hp).
  now rewrite <- app_assoc.
Qed.

(** X2. What [findMainSitemap] answers says what the site did: a URL is
    origin + a candidate that answered while every candidate before it
    failed; [null] means that every candidate failed; it throws only the
    [TypeError] of [new URL], before it logs or requests anything; it never
    ends the process and is never left pending. *)
Theorem findMainSitemap_answer (domain : string) (t : trace) :
  match findMainSitemap P domain t with
  | (Normal (Some u), _) =>
      exists origin pre p post,
        URL_origin P (baseUrl domain) = Some origin /\
        sitemapPaths = (pre ++ p :: post)%list /\
        u = origin ++ p /\
        axios_head P u = true /\
        (forall q, In q pre -> axios_head P (origin ++ q) = false)
  | (Normal None, _) =>
      exists origin,
        URL_origin P (baseUrl domain) = Some origin /\
        (forall q, In q sitemapPaths -> axios_head P (origin ++ q) = false)
  | (Throw e, t') => e = TypeError /\ URL_origin P (baseUrl domain) = None /\ t' = t
  | (Exit _, _) | (Pending, _) => False
  end.
Proof.
  unfold findMainSitemap, new_URL_origin, bind at 1.
  destruct (URL_origin P (baseUrl domain)) as [origin|] eqn:Horigin; cbn [throw ret];
    [|auto].
  unfold bind at 1. unfold emit.
  destruct (first_reachable origin sitemapPaths) as [(pre & p & post & Hsplit & Hpre & Hp)|Hall].
  - rewrite Hsplit, (probe_found P domain origin pre p post _ Hpre Hp).
    exists origin, pre, p, post. rewrite <- Hsplit. auto.
  - rewrite (probe_missing P domain origin sitemapPaths _ Hall). eauto.
Qed.

Lemma findMainSitemap_trace (domain : string) (t : trace) :
  get_requests (snd (findMainSitemap P domain t)) = get_requests t /\
  exists n,
    head_requests (snd (findMainSitemap P domain t)) =
    (head_requests t ++ firstn n (candidates P domain))%list.
Proof.
  unfold candidates, findMainSitemap, new_URL_origin, bind at 1, bind at 2.
  destruct (URL_origin P (baseUrl domain)) as [origin|]; cbn [throw ret snd].
  2:{ split; [reflexivity|]. exists 0. now rewrite app_nil_r. }
  unfold bind, emit.
  destruct (first_reachable origin sitemapPaths) as [(pre & p & post & Hsplit & Hpre & Hp)|Hall].
  - rewrite Hsplit, (probe_found P domain origin pre p post _ Hpre Hp). cbn [snd]. split.
    + rewrite !get_requests_app, get_requests_checks. cbn. now rewrite !app_nil_r.
    + exists (S (List.length pre)).
      rewrite !head_requests_app, head_requests_checks. cbn [head_requests flat_map app].
      rewrite <- app_assoc. f_equal. cbn [app].
      rewrite map_app. cbn [map]. rewrite firstn_app, firstn_all2 by (rewrite length_map; lia).
      rewrite length_map. replace (S (List.length pre) - List.length pre) with 1 by lia.
      reflexivity.
  - rewrite (probe_missing P domain origin sitemapPaths _ Hall). cbn [snd]. split.
    + rewrite !get_requests_app, get_requests_checks. cbn. now rewrite !app_nil_r.
    + exists 5.
      rewrite !head_requests_app, head_requests_checks. cbn [head_requests flat_map app].
      now rewrite app_nil_r.
Qed.

Lemma candidates_NoDup (domain : string) : NoDup (candidates P domain).
Proof.
  unfold candidates. destruct (URL_origin P (baseUrl domain)) as [origin|]; [|constructor].
  pose proof sitemapPaths_NoDup as Hnd.
  induction Hnd as [|q paths Hq _ IH]; cbn [map]; constructor; [|exact IH].
  rewrite in_map_iff. intros (q' & Heq & Hq').
  apply append_inj_l in Heq. now subst q'.
Qed.

(** X3. [findMainSitemap] sends no GET, and its HEAD requests are the first
    candidates of the list, each once: no candidate is retried, and there
    are at most five checks. *)
Theorem findMainSitemap_requests (domain : string) (t : trace) :
  get_requests (snd (findMainSitemap P domain t)) = get_requests t /\
  exists checked,
    head_requests (snd (findMainSitemap P domain t)) = (head_requests t ++ checked)%list /\
    (exists n, checked = firstn n (candidates P domain)) /\
    NoDup checked /\
    List.length checked <= 5.
Proof.
  destruct (findMainSitemap_trace domain t) as (Hget & n & Hhead).
  split; [exact Hget|].
  exists (firstn n (candidates P domain)). split; [exact Hhead|]. split; [eauto|]. split.
  - pose proof (candidates_NoDup domain) as Hnd.
    rewrite <- (firstn_skipn n (candidates P domain)) in Hnd.
    now apply NoDup_app_remove_r in Hnd.
  - rewrite length_firstn. unfold candidates.
    destruct (URL_origin P (baseUrl domain)); cbn; lia.
Qed.

Lemma probe_domain_irrelevant (d1 d2 origin : string) (paths : list string) (t : trace) :
  fst (probe P d1 origin paths t) = fst (probe P d2 origin paths t) /\
  requests (snd (probe P d1 origin paths t)) = requests (snd (probe P d2 origin paths t)).
Proof.
  destruct (first_reachable origin paths) as [(pre & p & post & -> & Hpre & Hp)|Hall].
  - now rewrite !(probe_found P _ origin pre p post _ Hpre Hp).
  - rewrite !(probe_missing P _ origin paths _ Hall). cbn [fst snd]. split; [reflexivity|].
    rewrite !requests_app. reflexivity.
Qed.

(** X4. A bare host and the same host after [https://] are located alike:
    the same answer and the same requests (only the wording of the
    not-found line differs). *)
Theorem findMainSitemap_scheme_optional (domain : string) (t : trace) :
  startsWith domain "http" = false ->
  fst (findMainSitemap P domain t) = fst (findMainSitemap P ("https://" ++ domain) t) /\
  requests (snd (findMainSitemap P domain t)) =
  requests (snd (findMainSitemap P ("https://" ++ domain) t)).
Proof.
  intros Hbare.
  assert (H1 : baseUrl domain = "https://" ++ domain) by (unfold baseUrl; now rewrite Hbare).
  assert (H2 : baseUrl ("https://" ++ domain) = "https://" ++ domain) by reflexivity.
  unfold findMainSitemap. rewrite H1, H2.
  unfold new_URL_origin, bind at 1, bind at 2, bind at 3, bind at 4.
  destruct (URL_origin P ("https://" ++ domain)) as [origin|]; cbn [throw ret];
    [|split; reflexivity].
  unfold bind, emit. apply probe_domain_irrelevant.
Qed.

End LocatorAnswers.

Lemma findMainSitemap_first_reachable_witness :
  findMainSitemap two_reachable "cms.example" [] =
  (Normal (Some ("https://cms.example" ++ "/sitemap_index.xml")),
   ([] ++ console_log ("🔎 Searching for a sitemap on " ++ "https://cms.example" ++ "...")
       :: checks "https://cms.example" ["/sitemap.xml"]
       ++ [HEAD ("https://cms.example" ++ "/sitemap_index.xml");
           console_log ("✅ Found main sitemap at: " ++ "https://cms.example"
                         ++ "/sitemap_index.xml")])%list).
Proof.
  apply (findMainSitemap_first_reachable two_reachable "cms.example" "https://cms.example"
           ["/sitemap.xml"] "/sitemap_index.xml"
           ["/wp-sitemap.xml"; "/sitemap-index.xml"; "/sitemap.xml.gz"] []).
  - reflexivity.
  - reflexivity.
  - intros q [<-|[]]. reflexivity.
  - reflexivity.
Defined.

Lemma findMainSitemap_scheme_optional_witness :
  fst (findMainSitemap two_reachable "cms.example" []) =
  fst (findMainSitemap two_reachable ("https://" ++ "cms.example") []) /\
  requests (snd (findMainSitemap two_reachable "cms.example" [])) =
  requests (snd (findMainSitemap two_reachable ("https://" ++ "cms.example") [])).
Proof.
  apply (findMainSitemap_scheme_optional two_reachable "cms.example" []). reflexivity.
Defined.

(** ** The walker: what it requests and what it drops *)

Lemma loc0_TypeError (entry : value) (e : error) : loc0 entry = inl e -> e = TypeError.
Proof.
  unfold loc0. destruct (get_prop entry "loc") as [e'|l] eqn:Hloc.
  - destruct entry; cbn in Hloc; congruence.
  - destruct l as [| |[|c s]|items|fields]; cbn; congruence.
Qed.

Lemma map_items_missing_loc (entries : list value) (entry : value) :
  In entry entries ->
  get_prop entry "loc" = inr Undefined ->
  map_items loc0 entries = inl TypeError.
Proof.
  intros Hin Hloc. induction entries as [|x entries IH]; [contradiction|].
  cbn [map_items]. destruct (loc0 x) as [e|y] eqn:Hx.
  - now rewrite (loc0_TypeError _ _ Hx).
  - destruct Hin as [->|Hin].
    + unfold loc0 in Hx. rewrite Hloc in Hx. discriminate.
    + now rewrite (IH Hin).
Qed.

Section WalkerRequests.

Variable P : Platform.

Lemma collect_urlset_keeps (result : value) (acc : scan) (t : trace) :
  exists c contents,
    collect_urlset result (acc, t) =
    (c, ({| subSitemaps := subSitemaps acc; contentUrls := contents |}, t)) /\
    settled c.
Proof.
  destruct acc as [subs contents]. cbn [subSitemaps].
  unfold collect_urlset, bind at 1.
  destruct (js_and _ _) as [e|isUrlset]; cbn [of_sum throw ret];
    [do 2 eexists; split; [reflexivity | exact I]|].
  destruct (truthy isUrlset); [|do 2 eexists; split; [reflexivity | exact I]].
  unfold bind, push_contentUrls.
  destruct (path2 result "urlset" "url") as [e|entries]; cbn [of_sum throw ret];
    [do 2 eexists; split; [reflexivity | exact I]|].
  destruct (js_map loc0 entries) as [e|urls]; cbn [of_sum throw ret subSitemaps];
    do 2 eexists; split; [reflexivity | exact I | reflexivity | exact I].
Qed.

Section Blocks.

Variable rec : value -> M trace scan.

Hypothesis rec_no_head :
  forall location t, head_requests (snd (rec location t)) = head_requests t.

Lemma forEach_nested_no_head (locations : list value) (s : frame) :
  head_requests (snd (snd (forEach locations (nested rec) s))) = head_requests (snd s).
Proof.
  revert s. induction locations as [|location rest IH]; intros [acc t]; cbn [forEach].
  - reflexivity.
  - unfold bind at 1. unfold nested at 1. unfold bind at 1, lift.
    pose proof (rec_no_head location t) as Hcall.
    destruct (rec location t) as [[r|e|code|] t1]; cbn [snd] in Hcall |- *; try exact Hcall.
    unfold bind, push_subSitemaps, push_contentUrls. rewrite IH. exact Hcall.
Qed.

Lemma try_block_no_head (url : value) (acc : scan) (t : trace) :
  head_requests (snd (snd (try_block P rec url (acc, t)))) = head_requests t.
Proof.
  assert (Hget : head_requests (t ++ [GET url])%list = head_requests t).
  { rewrite head_requests_app. cbn. apply app_nil_r. }
  unfold try_block, bind at 1, lift, get, bind at 1, emit.
  destruct (axios_get P url) as [data|]; cbn [throw ret snd]; [|exact Hget].
  unfold bind at 1, parse.
  destruct (parseStringPromise P data) as [result|]; cbn [throw ret snd]; [|exact Hget].
  unfold bind.
  assert (Hwalk : forall s, head_requests (snd (snd (walk_index rec result s)))
                            = head_requests (snd s)).
  { intros [acc0 t0]. unfold walk_index, bind at 1.
    destruct (js_and _ _) as [e|isIndex]; cbn [of_sum throw ret snd]; [reflexivity|].
    destruct (truthy isIndex); [|reflexivity].
    unfold bind at 1.
    destruct (path2 result "sitemapindex" "sitemap") as [e|entries];
      cbn [of_sum throw ret snd]; [reflexivity|].
    destruct (js_map loc0 entries) as [e|locations]; cbn [of_sum throw ret snd]; [reflexivity|].
    unfold bind, push_subSitemaps. now rewrite forEach_nested_no_head. }
  specialize (Hwalk (acc, (t ++ [GET url])%list)).
  destruct (walk_index rec result _) as [[[]|e|code|] [acc1 t1]]; cbn [snd] in Hwalk |- *;
    try (now rewrite Hwalk).
  destruct (collect_urlset_keeps result acc1 t1) as (c & contents & -> & _). cbn [snd].
  now rewrite Hwalk.
Qed.

End Blocks.

(** X5. [parseSitemap] sends no HEAD request, whatever it is called on and
    however the walk ends: existence checks are the locator's alone. *)
Theorem parseSitemap_no_head (fuel : nat) (url : value) (t : trace) :
  head_requests (snd (parseSitemap P fuel url t)) = head_requests t.
Proof.
  revert url t. induction fuel as [|fuel IH]; intros url t; [reflexivity|].
  rewrite parseSitemap_step_value.
  destruct (template P url) as [e|shown]; [reflexivity|].
  pose proof (try_block_no_head (parseSitemap P fuel) IH url no_scan
                (t ++ [console_log ("🔎 Parsing " ++ shown ++ "...")])%list) as H.
  rewrite head_requests_app in H. cbn [head_requests flat_map app] in H.
  rewrite app_nil_r in H.
  destruct (try_block P (parseSitemap P fuel) url _) as [[[]|e|code|] [acc t']];
    cbn [snd] in H |- *; try exact H.
  rewrite head_requests_app, H. cbn. apply app_nil_r.
Qed.

(** X7. One [sitemap] entry without a [loc] child makes the whole index
    contribute nothing: the extraction throws before any location is
    recorded, so the entries that do have a [loc] are neither reported nor
    fetched, and the call returns two empty lists after its diagnostic. *)
Theorem parseSitemap_index_entry_without_loc
        (fuel : nat) (url : string) (result index : value) (entries : list value)
        (entry : value) (t : trace) :
  serves P (Str url) result ->
  get_prop result "sitemapindex" = inr index ->
  get_prop index "sitemap" = inr (Arr entries) ->
  In entry entries ->
  get_prop entry "loc" = inr Undefined ->
  parseSitemap P (S fuel) (Str url) t =
  (Normal no_scan, (t ++ opening url ++ [diagnostic url TypeError])%list).
Proof.
  intros Hserves Hindex Hentries Hin Hloc.
  rewrite parseSitemap_step, (try_block_served _ _ _ _ _ _ Hserves).
  unfold bind at 1. unfold walk_index, js_and, path2, bind at 1, of_sum.
  rewrite Hindex, (has_array_truthy _ _ _ Hentries), Hentries. cbn [ret truthy].
  unfold bind at 1. cbn [js_map]. rewrite (map_items_missing_loc _ _ Hin Hloc).
  cbn [throw]. unfold opening. now rewrite <- !app_assoc.
Qed.

(** X8. One [url] entry without a [loc] child makes the whole urlset
    contribute nothing: the URLs of the entries that do have a [loc] are
    dropped with it, and the call returns two empty lists after its
    diagnostic. *)
Theorem parseSitemap_url_entry_without_loc
        (fuel : nat) (url : string) (result set : value) (entries : list value)
        (entry : value) (t : trace) :
  serves P (Str url) result ->
  get_prop result "sitemapindex" = inr Undefined ->
  get_prop result "urlset" = inr set ->
  get_prop set "url" = inr (Arr entries) ->
  In entry entries ->
  get_prop entry "loc" = inr Undefined ->
  parseSitemap P (S fuel) (Str url) t =
  (Normal no_scan, (t ++ opening url ++ [diagnostic url TypeError])%list).
Proof.
  intros Hserves Hindex Hset Hentries Hin Hloc.
  rewrite parseSitemap_step, (try_block_served _ _ _ _ _ _ Hserves).
  unfold bind at 1. rewrite walk_index_absent by exact Hindex.
  unfold collect_urlset, js_and, path2, bind at 1, of_sum.
  rewrite Hset, (has_array_truthy _ _ _ Hentries), Hentries. cbn [ret truthy].
  unfold bind at 1. cbn [js_map]. rewrite (map_items_missing_loc _ _ Hin Hloc).
  cbn [throw]. unfold opening. now rewrite <- !app_assoc.
Qed.

(** What the next lemmas ask of the nested calls on strings. *)
Section Fetches.

Variable rec : value -> M trace scan.

Hypothesis rec_fetches :
  forall s t,
    match rec (Str s) t with
    | (Normal r, t') =>
        Permutation (get_requests t') (get_requests t ++ Str s :: subSitemaps r)
    | (Pending, _) => True
    | (Throw _, _) | (Exit _, _) => False
    end.

Lemma forEach_nested_fetches (locations : list value) :
  (forall location, In location locations -> exists s, location = Str s) ->
  forall s0 : frame,
    match forEach locations (nested rec) s0 with
    | (Normal _, (acc', t')) =>
        exists news,
          subSitemaps acc' = (subSitemaps (fst s0) ++ news)%list /\
          Permutation (get_requests t') (get_requests (snd s0) ++ locations ++ news)
    | (Pending, _) => True
    | (Throw _, _) | (Exit _, _) => False
    end.
Proof.
  induction locations as [|location rest IH]; intros Hstrings [acc t]; cbn [fst snd].
  - cbn. exists []. now rewrite !app_nil_r.
  - destruct (Hstrings location (or_introl eq_refl)) as (s & ->).
    cbn [forEach]. unfold bind at 1. unfold nested at 1. unfold bind at 1, lift.
    pose proof (rec_fetches s t) as Hcall.
    destruct (rec (Str s) t) as [[r|e|code|] t1]; try contradiction; [|exact I].
    unfold bind, push_subSitemaps, push_contentUrls.
    match goal with |- context [forEach rest (nested rec) ?s1] =>
      generalize (IH (fun l Hl => Hstrings l (or_intror Hl)) s1);
      destruct (forEach rest (nested rec) s1) as [[[]|e|code|] [acc' t']] end;
      cbn [fst snd subSitemaps]; try contradiction; [|intros _; exact I].
    intros (news & Hsubs & Hperm).
    exists (subSitemaps r ++ news)%list. split.
    + now rewrite Hsubs, <- app_assoc.
    + rewrite Hperm, Hcall. rewrite <- !app_assoc. apply Permutation_app_head.
      cbn [app]. constructor. rewrite !app_assoc. apply Permutation_app_tail.
      apply Permutation_app_comm.
Qed.

Lemma try_block_fetches (url : string) :
  (forall location, In location (sitemapLocations P (Str url)) -> exists s, location = Str s) ->
  forall acc t,
    match try_block P rec (Str url) (acc, t) with
    | (Normal _, (acc', t')) | (Throw _, (acc', t')) =>
        exists news,
          subSitemaps acc' = (subSitemaps acc ++ news)%list /\
          Permutation (get_requests t') (get_requests t ++ Str url :: news)
    | (Pending, _) => True
    | (Exit _, _) => False
    end.
Proof.
  intros Hstrings acc t.
  assert (Hnone : exists news,
             subSitemaps acc = (subSitemaps acc ++ news)%list /\
             Permutation (get_requests (t ++ [GET (Str url)])%list)
                         (get_requests t ++ Str url :: news)).
  { exists []. rewrite app_nil_r, get_requests_app. split; reflexivity. }
  unfold sitemapLocations in Hstrings.
  unfold try_block, bind at 1, lift, get, bind at 1, emit.
  destruct (axios_get P (Str url)) as [data|]; cbn [throw ret]; [|exact Hnone].
  unfold bind at 1, parse.
  destruct (parseStringPromise P data) as [result|]; cbn [throw ret]; [|exact Hnone].
  unfold locations_of in Hstrings.
  unfold bind at 1. unfold walk_index, bind at 1.
  destruct (js_and _ _) as [e|isIndex]; cbn [of_sum throw ret]; [exact Hnone|].
  destruct (truthy isIndex).
  2:{ cbn [ret].
      destruct (collect_urlset_keeps result acc (t ++ [GET (Str url)])%list)
        as (c & contents & -> & Hc).
      destruct c; try contradiction; cbn [subSitemaps]; exact Hnone. }
  unfold bind at 1.
  destruct (path2 result "sitemapindex" "sitemap") as [e|entries];
    cbn [of_sum throw ret]; [exact Hnone|].
  destruct (js_map loc0 entries) as [e|locations]; cbn [of_sum throw ret]; [exact Hnone|].
  unfold bind at 1, push_subSitemaps.
  match goal with |- context [forEach locations (nested rec) ?s1] =>
    generalize (forEach_nested_fetches locations Hstrings s1);
    destruct (forEach locations (nested rec) s1) as [[[]|e|code|] [acc1 t1]] end;
    cbn [fst snd subSitemaps]; try contradiction; [|intros _; exact I].
  intros (news & Hsubs & Hperm).
  assert (Hall : exists news',
             subSitemaps acc1 = (subSitemaps acc ++ news')%list /\
             Permutation (get_requests t1) (get_requests t ++ Str url :: news')).
  { exists (locations ++ news)%list. split.
    - now rewrite Hsubs, <- app_assoc.
    - rewrite Hperm, get_requests_app. cbn [get_requests flat_map app].
      now rewrite <- !app_assoc. }
  destruct (collect_urlset_keeps result acc1 t1) as (c & contents & -> & Hc).
  destruct c; try contradiction; cbn [subSitemaps]; exact Hall.
Qed.

End Fetches.

Lemma parseSitemap_fetches (fuel : nat) :
  (forall u location, In location (sitemapLocations P u) -> exists s, location = Str s) ->
  forall url t,
    match parseSitemap P fuel (Str url) t with
    | (Normal r, t') =>
        Permutation (get_requests t') (get_requests t ++ Str url :: subSitemaps r)
    | (Pending, _) => True
    | (Throw _, _) | (Exit _, _) => False
    end.
Proof.
  intros Hstrings. induction fuel as [|fuel IH]; intros url t; [exact I|].
  rewrite parseSitemap_step.
  pose proof (try_block_fetches (parseSitemap P fuel) IH url (Hstrings (Str url)) no_scan
                (t ++ [console_log ("🔎 Parsing " ++ url ++ "...")])%list) as H.
  rewrite get_requests_app in H. cbn [get_requests flat_map app] in H.
  rewrite app_nil_r in H.
  destruct (try_block P (parseSitemap P fuel) (Str url) _) as [[[]|e|code|] [acc t']];
    try contradiction; [| |exact I].
  - destruct H as (news & Hsubs & Hperm). cbn in Hsubs. now subst news.
  - destruct H as (news & Hsubs & Hperm). cbn in Hsubs. subst news.
    rewrite get_requests_app. cbn [get_requests flat_map diagnostic app].
    now rewrite app_nil_r.
Qed.

(** X6. On a site whose index locations are all strings, the GET requests of
    a walk that returns are, up to order, its own URL and the sub-sitemaps it
    reports: every reported sub-sitemap was requested once per occurrence in
    the report, and nothing else was requested. *)
Theorem parseSitemap_fetches_what_it_reports
        (fuel : nat) (url : string) (t : trace) (r : scan) (t' : trace) :
  (forall u location, In location (sitemapLocations P u) -> exists s, location = Str s) ->
  parseSitemap P fuel (Str url) t = (Normal r, t') ->
  Permutation (get_requests t') (get_requests t ++ Str url :: subSitemaps r) /\
  List.length (get_requests t') = List.length (get_requests t) + 1 + List.length (subSitemaps r).
Proof.
  intros Hstrings Hwalk.
  pose proof (parseSitemap_fetches fuel Hstrings url t) as H. rewrite Hwalk in H.
  split; [exact H|].
  rewrite (Permutation_length H), length_app. cbn [List.length]. lia.
Qed.

End WalkerRequests.

Lemma parseSitemap_index_entry_without_loc_witness :
  parseSitemap missing_loc 2 (Str "https://gap.example/sitemap.xml") [] =
  (Normal no_scan,
   ([] ++ opening "https://gap.example/sitemap.xml"
       ++ [diagnostic "https://gap.example/sitemap.xml" TypeError])%list).
Proof.
  apply (parseSitemap_index_entry_without_loc missing_loc 1 "https://gap.example/sitemap.xml"
           (Obj [("sitemapindex",
                  Obj [("sitemap", Arr [loc_entry "https://gap.example/pages.xml";
                                        Obj [("lastmod", Arr [Str "2024-05-01"])];
                                        loc_entry "https://gap.example/posts.xml"])])])
           (Obj [("sitemap", Arr [loc_entry "https://gap.example/pages.xml";
                                  Obj [("lastmod", Arr [Str "2024-05-01"])];
                                  loc_entry "https://gap.example/posts.xml"])])
           [loc_entry "https://gap.example/pages.xml";
            Obj [("lastmod", Arr [Str "2024-05-01"])];
            loc_entry "https://gap.example/posts.xml"]
           (Obj [("lastmod", Arr [Str "2024-05-01"])]) []).
  - eexists. split; reflexivity.
  - reflexivity.
  - reflexivity.
  - right. left. reflexivity.
  - reflexivity.
Defined.

Lemma parseSitemap_url_entry_without_loc_witness :
  parseSitemap missing_loc 1 (Str "https://gap.example/pages.xml") [] =
  (Normal no_scan,
   ([] ++ opening "https://gap.example/pages.xml"
       ++ [diagnostic "https://gap.example/pages.xml" TypeError])%list).
Proof.
  apply (parseSitemap_url_entry_without_loc missing_loc 0 "https://gap.example/pages.xml"
           (Obj [("urlset",
                  Obj [("url", Arr [loc_entry "https://gap.example/a";
                                    Obj [("priority", Arr [Str "0.5"])];
                                    loc_entry "https://gap.example/b"])])])
           (Obj [("url", Arr [loc_entry "https://gap.example/a";
                              Obj [("priority", Arr [Str "0.5"])];
                              loc_entry "https://gap.example/b"])])
           [loc_entry "https://gap.example/a";
            Obj [("priority", Arr [Str "0.5"])];
            loc_entry "https://gap.example/b"]
           (Obj [("priority", Arr [Str "0.5"])]) []).
  - eexists. split; reflexivity.
  - reflexivity.
  - reflexivity.
  - reflexivity.
  - right. left. reflexivity.
  - reflexivity.
Defined.

Lemma two_children_string_locations (url location : value) :
  In location (sitemapLocations two_children url) -> exists s, location = Str s.
Proof.
  destruct url as [| |s| |]; try contradiction.
  unfold sitemapLocations. cbn [two_children site axios_get find fst snd option_map].
  destruct (String.eqb_spec "https://shop.example/sitemap_index.xml" s) as [<-|_].
  { cbn. intros [<-|[<-|[]]]; eauto. }
  destruct (String.eqb_spec "https://shop.example/a.xml" s) as [<-|_]; [contradiction|].
  destruct (String.eqb_spec "https://shop.example/b.xml" s) as [<-|_]; contradiction.
Qed.

Lemma parseSitemap_fetches_what_it_reports_witness :
  Permutation
    (get_requests (snd (parseSitemap two_children 2
                          (Str "https://shop.example/sitemap_index.xml") [])))
    (get_requests [] ++ Str "https://shop.example/sitemap_index.xml"
       :: [Str "https://shop.example/a.xml"; Str "https://shop.example/b.xml"]) /\
  List.length (get_requests (snd (parseSitemap two_children 2
                                    (Str "https://shop.example/sitemap_index.xml") [])))
  = List.length (get_requests []) + 1 + 2.
Proof.
  apply (parseSitemap_fetches_what_it_reports two_children 2
           "https://shop.example/sitemap_index.xml" []
           {| subSitemaps := [Str "https://shop.example/a.xml"; Str "https://shop.example/b.xml"];
              contentUrls := [Str "https://shop.example/a1"; Str "https://shop.example/a2";
                              Str "https://shop.example/b1"; Str "https://shop.example/b2";
                              Str "https://shop.example/b3"] |}
           (snd (parseSitemap two_children 2
                   (Str "https://shop.example/sitemap_index.xml") []))).
  - exact two_children_string_locations.
  - reflexivity.
Defined.

(** ** The library entry point *)

Section Library.

Variable P : Platform.

Lemma findMainSitemap_completion (domain : string) (t : trace) :
  match findMainSitemap P domain t with
  | (Normal (Some u), _) => u <> ""
  | (Normal None, _) => True
  | (Throw e, t') => e = TypeError /\ URL_origin P (baseUrl domain) = None /\ t' = t
  | (Exit _, _) | (Pending, _) => False
  end.
Proof.
  destruct (findMainSitemap P domain t) as [[[u|]|e|code|] t'] eqn:Hfind; try exact I.
  - destruct (findMainSitemap_some _ _ _ _ _ Hfind) as (o & q & _ & Hq & ->).
    apply append_nonempty. now apply sitemapPaths_nonempty.
  - revert Hfind. unfold findMainSitemap, new_URL_origin, bind at 1.
    destruct (URL_origin P (baseUrl domain)) as [origin|]; cbn [throw ret].
    + unfold bind, emit.
      destruct (first_reachable P origin sitemapPaths)
        as [(pre & p & post & Hsplit & Hpre & Hp)|Hall].
      * rewrite Hsplit, (probe_found P domain origin pre p post _ Hpre Hp). discriminate.
      * rewrite (probe_missing P domain origin sitemapPaths _ Hall). discriminate.
    + now intros [= <- <-].
  - revert Hfind. unfold findMainSitemap, new_URL_origin, bind at 1.
    destruct (URL_origin P (baseUrl domain)) as [origin|]; cbn [throw ret]; [|discriminate].
    unfold bind, emit.
    destruct (first_reachable P origin sitemapPaths)
      as [(pre & p & post & Hsplit & Hpre & Hp)|Hall].
    * rewrite Hsplit, (probe_found P domain origin pre p post _ Hpre Hp). discriminate.
    * rewrite (probe_missing P domain origin sitemapPaths _ Hall). discriminate.
  - revert Hfind. unfold findMainSitemap, new_URL_origin, bind at 1.
    destruct (URL_origin P (baseUrl domain)) as [origin|]; cbn [throw ret]; [|discriminate].
    unfold bind, emit.
    destruct (first_reachable P origin sitemapPaths)
      as [(pre & p & post & Hsplit & Hpre & Hp)|Hall].
    * rewrite Hsplit, (probe_found P domain origin pre p post _ Hpre Hp). discriminate.
    * rewrite (probe_missing P domain origin sitemapPaths _ Hall). discriminate.
Qed.

Lemma getLinks_found (fuel : nat) (domain u : string) (t t1 : trace) :
  findMainSitemap P domain t = (Normal (Some u), t1) ->
  getLinks P fuel domain t =
  match parseSitemap P fuel (Str u) t1 with
  | (Normal r, t2) => (Normal (contentUrls r), t2)
  | (Throw e, t2) => (Throw e, t2)
  | (Exit code, t2) => (Exit code, t2)
  | (Pending, t2) => (Pending, t2)
  end.
Proof.
  intros Hfind. pose proof (findMainSitemap_completion domain t) as Hu.
  rewrite Hfind in Hu. apply String.eqb_neq in Hu.
  unfold getLinks, bind at 1. rewrite Hfind. cbn [not_string url_value]. rewrite Hu.
  unfold bind. destruct (parseSitemap P fuel (Str u) t1) as [[r|e|code|] t2]; reflexivity.
Qed.

(** X9. [getLinks] rejects only with the [TypeError] of [new URL] on a
    domain that is no valid URL; no failure of the network or of the parser
    makes it reject, and it never ends the process. *)
Theorem getLinks_rejects_only_invalid_url (fuel : nat) (domain : string) (t : trace) :
  match fst (getLinks P fuel domain t) with
  | Throw e => e = TypeError /\ URL_origin P (baseUrl domain) = None
  | Exit _ => False
  | Normal _ | Pending => True
  end.
Proof.
  pose proof (findMainSitemap_completion domain t) as Hfind.
  destruct (findMainSitemap P domain t) as [[[u|]|e|code|] t1] eqn:Efind; try contradiction.
  - rewrite (getLinks_found fuel domain u t t1 Efind).
    pose proof (parseSitemap_string_completion P fuel u t1) as Hwalk.
    destruct (parseSitemap P fuel (Str u) t1) as [[r|e|code|] t2]; cbn in Hwalk |- *;
      try contradiction; exact I.
  - unfold getLinks, bind. rewrite Efind. exact I.
  - unfold getLinks, bind. rewrite Efind. cbn. tauto.
Qed.

(** X10. When the sitemap that was located cannot be fetched or parsed,
    [getLinks] returns the empty list, as it does when no sitemap exists:
    the caller cannot tell the two apart. *)
Theorem getLinks_unreadable_sitemap
        (fuel : nat) (domain u : string) (e : error) (t t1 : trace) :
  findMainSitemap P domain t = (Normal (Some u), t1) ->
  failure P (Str u) = Some e ->
  getLinks P (S fuel) domain t = (Normal [], (t1 ++ opening u ++ [diagnostic u e])%list).
Proof.
  intros Hfind Hfail.
  rewrite (getLinks_found (S fuel) domain u t t1 Hfind).
  now rewrite (parseSitemap_failure P fuel u e t1 Hfail).
Qed.

End Library.

Lemma getLinks_unreadable_sitemap_witness :
  getLinks gzip_only 1 "gz.example" [] =
  (Normal [],
   (snd (findMainSitemap gzip_only "gz.example" [])
      ++ opening "https://gz.example/sitemap.xml.gz"
      ++ [diagnostic "https://gz.example/sitemap.xml.gz" XmlError])%list).
Proof.
  apply (getLinks_unreadable_sitemap gzip_only 0 "gz.example"
           "https://gz.example/sitemap.xml.gz" XmlError []
           (snd (findMainSitemap gzip_only "gz.example" []))).
  - reflexivity.
  - reflexivity.
Defined.

(** ** The command line, mode by mode *)

Lemma forEach_emit {A} (f : A -> event) (items : list A) (t : trace) :
  forEach items (fun x => emit (f x)) t = (Normal tt, (t ++ map f items)%list).
Proof.
  revert t. induction items as [|x items IH]; intros t; cbn [forEach map].
  - unfold ret. now rewrite app_nil_r.
  - unfold bind, emit. rewrite IH. now rewrite <- app_assoc.
Qed.

Section Modes.

Variable P : Platform.

(** What a list of URLs prints in the modes [--subs] and [--urls]. *)
Lemma print_listing (found none : string) (urls : list value) (t : trace) :
  (if Nat.ltb 0 (List.length urls) then
     emit (console_log (nl ++ "Found " ++ decimal (List.length urls) ++ found)) ;;
     forEach urls (fun url => emit (log_value url))
   else
     emit (console_log (nl ++ none))) t
  = (Normal tt, (t ++ listing found none urls)%list).
Proof.
  destruct urls as [|url urls]; [reflexivity|].
  cbn [List.length Nat.ltb Nat.leb listing]. unfold bind, emit at 1.
  rewrite forEach_emit. now rewrite <- app_assoc.
Qed.

(** [cliMain] once both arguments are there: what follows the usage test. *)
Lemma cliMain_with_arguments (fuel : nat) (argv : list string) (domain argument : string)
      (t : trace) :
  nth_error argv 2 = Some domain ->
  nth_error argv 3 = Some argument ->
  domain <> "" ->
  argument <> "" ->
  cliMain P fuel argv t =
  match findMainSitemap P domain t with
  | (Normal None, t1) => (Exit 1, t1)
  | (Normal (Some u), t1) =>
      if String.eqb argument "--main" then
        (Normal tt, (t1 ++ [console_log (nl ++ "Main Sitemap URL:"); console_log u])%list)
      else
        match parseSitemap P fuel (Str u) t1 with
        | (Normal r, t2) =>
            if String.eqb argument "--subs" then
              (Normal tt,
               (t2 ++ listing " Sub-Sitemap URLs:" "No sub-sitemaps found." (subSitemaps r))%list)
            else if String.eqb argument "--urls" then
              (Normal tt,
               (t2 ++ listing " Content URLs:" "No content URLs found in the sitemap(s)."
                              (contentUrls r))%list)
            else (Exit 1, (t2 ++ [invalid_argument argument])%list)
        | (Throw e, t2) => (Throw e, t2)
        | (Exit code, t2) => (Exit code, t2)
        | (Pending, t2) => (Pending, t2)
        end
  | (Throw e, t1) => (Throw e, t1)
  | (Exit code, t1) => (Exit code, t1)
  | (Pending, t1) => (Pending, t1)
  end.
Proof.
  intros Hdomain Hargument Hd Ha. apply String.eqb_neq in Hd, Ha.
  pose proof (findMainSitemap_completion P domain t) as Hu.
  unfold cliMain. rewrite Hdomain, Hargument. cbn [argv_string not_string].
  rewrite Hd, Ha. cbn [orb]. unfold bind at 1. cbn [ret]. unfold bind at 1.
  destruct (findMainSitemap P domain t) as [[[u|]|e|code|] t1]; try reflexivity.
  apply String.eqb_neq in Hu. cbn [not_string]. rewrite Hu.
  unfold bind at 1. cbn [ret url_value].
  destruct (String.eqb argument "--main").
  { unfold bind, emit. cbn [log_value]. now rewrite <- app_assoc. }
  unfold bind at 1.
  destruct (parseSitemap P fuel (Str u) t1) as [[r|e|code|] t2]; try reflexivity.
  destruct (String.eqb argument "--subs"); [apply print_listing|].
  destruct (String.eqb argument "--urls"); [apply print_listing|].
  reflexivity.
Qed.

(** X11. In the mode [--main] the CLI never walks: no GET is sent whatever
    the locator answers, the run does not depend on the fuel of the walker,
    and when a sitemap is located the process prints the heading and the
    URL and ends normally. *)
Theorem cliMain_main_mode (fuel : nat) (argv : list string) (domain : string) (t : trace) :
  nth_error argv 2 = Some domain ->
  domain <> "" ->
  nth_error argv 3 = Some "--main" ->
  get_requests (snd (main P fuel argv t)) = get_requests t /\
  (forall fuel', main P fuel' argv t = main P fuel argv t) /\
  (forall u t1,
     findMainSitemap P domain t = (Normal (Some u), t1) ->
     main P fuel argv t =
     (Normal tt, (t1 ++ [console_log (nl ++ "Main Sitemap URL:"); console_log u])%list)).
Proof.
  intros Hdomain Hd Hmode.
  assert (Hrun : forall n, main P n argv t =
            match findMainSitemap P domain t with
            | (Normal None, t1) => (Exit 1, t1)
            | (Normal (Some u), t1) =>
                (Normal tt,
                 (t1 ++ [console_log (nl ++ "Main Sitemap URL:"); console_log u])%list)
            | (Throw e, t1) => (Normal tt, (t1 ++ [console_error "" (Some e)])%list)
            | (Exit code, t1) => (Exit code, t1)
            | (Pending, t1) => (Pending, t1)
            end).
  { intros n. unfold main, try_catch.
    rewrite (cliMain_with_arguments n argv domain "--main" t Hdomain Hmode Hd
               ltac:(discriminate)).
    destruct (findMainSitemap P domain t) as [[[u|]|e|code|] t1]; reflexivity. }
  split; [|split].
  - rewrite Hrun. destruct (findMainSitemap_trace P domain t) as (Hget & _).
    destruct (findMainSitemap P domain t) as [[[u|]|e|code|] t1]; cbn [snd] in Hget |- *;
      try exact Hget; rewrite get_requests_app, Hget; cbn; apply app_nil_r.
  - intros fuel'. now rewrite !Hrun.
  - intros u t1 Hfind. now rewrite Hrun, Hfind.
Qed.

(** X12. In the mode [--subs], when a sitemap is located and its walk
    returns, the process prints the sub-sitemaps of the walk, one per line in
    the order of the list under a heading with their number, or the line that
    none was found when the list is empty, and ends normally. *)
Theorem cliMain_subs_mode
        (fuel : nat) (argv : list string) (domain u : string) (r : scan) (t t1 t2 : trace) :
  nth_error argv 2 = Some domain ->
  domain <> "" ->
  nth_error argv 3 = Some "--subs" ->
  findMainSitemap P domain t = (Normal (Some u), t1) ->
  parseSitemap P fuel (Str u) t1 = (Normal r, t2) ->
  main P fuel argv t =
  (Normal tt,
   (t2 ++ listing " Sub-Sitemap URLs:" "No sub-sitemaps found." (subSitemaps r))%list).
Proof.
  intros Hdomain Hd Hmode Hfind Hwalk. unfold main, try_catch.
  rewrite (cliMain_with_arguments fuel argv domain "--subs" t Hdomain Hmode Hd
             ltac:(discriminate)).
  rewrite Hfind. cbn [String.eqb Ascii.eqb Bool.eqb andb]. now rewrite Hwalk.
Qed.

(** X13. In the mode [--urls], when a sitemap is located and its walk
    returns, the process prints the content URLs of the walk, one per line in
    the order of the list under a heading with their number, or the line that
    none was found when the list is empty, and ends normally; the URLs are
    the list [getLinks] returns for the domain. *)
Theorem cliMain_urls_mode
        (fuel : nat) (argv : list string) (domain u : string) (r : scan) (t t1 t2 : trace) :
  nth_error argv 2 = Some domain ->
  domain <> "" ->
  nth_error argv 3 = Some "--urls" ->
  findMainSitemap P domain t = (Normal (Some u), t1) ->
  parseSitemap P fuel (Str u) t1 = (Normal r, t2) ->
  main P fuel argv t =
  (Normal tt,
   (t2 ++ listing " Content URLs:" "No content URLs found in the sitemap(s)."
                  (contentUrls r))%list) /\
  getLinks P fuel domain t = (Normal (contentUrls r), t2).
Proof.
  intros Hdomain Hd Hmode Hfind Hwalk. split.
  - unfold main, try_catch.
    rewrite (cliMain_with_arguments fuel argv domain "--urls" t Hdomain Hmode Hd
               ltac:(discriminate)).
    rewrite Hfind. cbn [String.eqb Ascii.eqb Bool.eqb andb]. now rewrite Hwalk.
  - now rewrite (getLinks_found P fuel domain u t t1 Hfind), Hwalk.
Qed.

(** X14. Whatever the mode, when no candidate answers the process exits
    with status 1 right after the locator: nothing is parsed and no GET is
    sent. *)
Theorem cliMain_no_sitemap
        (fuel : nat) (argv : list string) (domain argument : string) (t t1 : trace) :
  nth_error argv 2 = Some domain ->
  nth_error argv 3 = Some argument ->
  domain <> "" ->
  argument <> "" ->
  findMainSitemap P domain t = (Normal None, t1) ->
  main P fuel argv t = (Exit 1, t1) /\ get_requests t1 = get_requests t.
Proof.
  intros Hdomain Hargument Hd Ha Hfind. split.
  - unfold main, try_catch.
    rewrite (cliMain_with_arguments fuel argv domain argument t Hdomain Hargument Hd Ha).
    now rewrite Hfind.
  - destruct (findMainSitemap_trace P domain t) as (Hget & _). now rewrite Hfind in Hget.
Qed.

(** X15. A domain that [new URL] rejects does not end the process with an
    error status: the rejection of [cliMain] is handed to [console.error],
    nothing is requested, and the script runs to its end. *)
Theorem main_invalid_domain
        (fuel : nat) (argv : list string) (domain argument : string) (t : trace) :
  nth_error argv 2 = Some domain ->
  nth_error argv 3 = Some argument ->
  domain <> "" ->
  argument <> "" ->
  URL_origin P (baseUrl domain) = None ->
  main P fuel argv t = (Normal tt, (t ++ [console_error "" (Some TypeError)])%list).
Proof.
  intros Hdomain Hargument Hd Ha Hurl. unfold main, try_catch.
  rewrite (cliMain_with_arguments fuel argv domain argument t Hdomain Hargument Hd Ha).
  unfold findMainSitemap, new_URL_origin, bind at 1. rewrite Hurl. reflexivity.
Qed.

(** X16. The process never ends on an unhandled rejection, and the only
    status it passes to [process.exit] is 1: a run ends normally, exits with
    status 1, or is still waiting for the walk. *)
Theorem main_exit_status (fuel : nat) (argv : list string) (t : trace) :
  match fst (main P fuel argv t) with
  | Normal _ | Pending => True
  | Exit code => code = 1
  | Throw _ => False
  end.
Proof.
  unfold main, try_catch.
  destruct (not_string (nth_error argv 2) || not_string (nth_error argv 3)) eqn:Hmissing.
  - unfold cliMain, bind at 1. rewrite Hmissing. reflexivity.
  - apply orb_false_elim in Hmissing. destruct Hmissing as [H2 H3].
    destruct (nth_error argv 2) as [domain|] eqn:Hdomain; [|discriminate].
    destruct (nth_error argv 3) as [argument|] eqn:Hargument; [|discriminate].
    cbn [not_string] in H2, H3. apply String.eqb_neq in H2, H3.
    rewrite (cliMain_with_arguments fuel argv domain argument t Hdomain Hargument H2 H3).
    pose proof (findMainSitemap_completion P domain t) as Hfind.
    destruct (findMainSitemap P domain t) as [[[u|]|e|code|] t1]; try contradiction;
      try reflexivity.
    destruct (String.eqb argument "--main"); [exact I|].
    pose proof (parseSitemap_string_completion P fuel u t1) as Hwalk.
    destruct (parseSitemap P fuel (Str u) t1) as [[r|e|code|] t2]; cbn in Hwalk;
      try contradiction; [|exact I].
    destruct (String.eqb argument "--subs"); [exact I|].
    destruct (String.eqb argument "--urls"); [exact I|reflexivity].
Qed.

End Modes.

Lemma cliMain_main_mode_witness :
  get_requests (snd (main example_com 0 ["node"; "cli.js"; "example.com"; "--main"] []))
  = get_requests [] /\
  main example_com 0 ["node"; "cli.js"; "example.com"; "--main"] [] =
  (Normal tt,
   (snd (findMainSitemap example_com "example.com" [])
      ++ [console_log (nl ++ "Main Sitemap URL:");
          console_log "https://example.com/sitemap.xml"])%list).
Proof.
  destruct (cliMain_main_mode example_com 0 ["node"; "cli.js"; "example.com"; "--main"]
              "example.com" [] eq_refl ltac:(discriminate) eq_refl) as (Hget & _ & Hfound).
  split; [exact Hget|].
  apply (Hfound "https://example.com/sitemap.xml"
           (snd (findMainSitemap example_com "example.com" []))).
  reflexivity.
Defined.

Lemma cliMain_subs_mode_witness :
  main wordpress 1 ["node"; "cli.js"; "blog.example.org"; "--subs"] [] =
  (Normal tt,
   (snd (parseSitemap wordpress 1 (Str "https://blog.example.org/wp-sitemap.xml")
           (snd (findMainSitemap wordpress "blog.example.org" [])))
      ++ [console_log (nl ++ "No sub-sitemaps found.")])%list) /\
  main example_com 2 ["node"; "cli.js"; "example.com"; "--subs"] [] =
  (Normal tt,
   (snd (parseSitemap example_com 2 (Str "https://example.com/sitemap.xml")
           (snd (findMainSitemap example_com "example.com" [])))
      ++ [console_log (nl ++ "Found 1 Sub-Sitemap URLs:");
          console_log "https://example.com/sitemap-posts.xml"])%list).
Proof.
  split.
  - apply (cliMain_subs_mode wordpress 1 ["node"; "cli.js"; "blog.example.org"; "--subs"]
             "blog.example.org" "https://blog.example.org/wp-sitemap.xml"
             {| subSitemaps := []; contentUrls := [Str "https://blog.example.org/hello-world"] |}
             [] (snd (findMainSitemap wordpress "blog.example.org" []))
             (snd (parseSitemap wordpress 1 (Str "https://blog.example.org/wp-sitemap.xml")
                     (snd (findMainSitemap wordpress "blog.example.org" []))))
             eq_refl ltac:(discriminate) eq_refl eq_refl eq_refl).
  - apply (cliMain_subs_mode example_com 2 ["node"; "cli.js"; "example.com"; "--subs"]
             "example.com" "https://example.com/sitemap.xml"
             {| subSitemaps := [Str "https://example.com/sitemap-posts.xml"];
                contentUrls := [Str "https://example.com/p1"; Str "https://example.com/p2"] |}
             [] (snd (findMainSitemap example_com "example.com" []))
             (snd (parseSitemap example_com 2 (Str "https://example.com/sitemap.xml")
                     (snd (findMainSitemap example_com "example.com" []))))
             eq_refl ltac:(discriminate) eq_refl eq_refl eq_refl).
Defined.

Lemma cliMain_urls_mode_witness :
  main example_com 2 ["node"; "cli.js"; "example.com"; "--urls"] [] =
  (Normal tt,
   (snd (parseSitemap example_com 2 (Str "https://example.com/sitemap.xml")
           (snd (findMainSitemap example_com "example.com" [])))
      ++ [console_log (nl ++ "Found 2 Content URLs:");
          console_log "https://example.com/p1";
          console_log "https://example.com/p2"])%list) /\
  getLinks example_com 2 "example.com" [] =
  (Normal [Str "https://example.com/p1"; Str "https://example.com/p2"],
   snd (parseSitemap example_com 2 (Str "https://example.com/sitemap.xml")
          (snd (findMainSitemap example_com "example.com" [])))).
Proof.
  apply (cliMain_urls_mode example_com 2 ["node"; "cli.js"; "example.com"; "--urls"]
           "example.com" "https://example.com/sitemap.xml"
           {| subSitemaps := [Str "https://example.com/sitemap-posts.xml"];
              contentUrls := [Str "https://example.com/p1"; Str "https://example.com/p2"] |}
           [] (snd (findMainSitemap example_com "example.com" []))
           (snd (parseSitemap example_com 2 (Str "https://example.com/sitemap.xml")
                   (snd (findMainSitemap example_com "example.com" []))))
           eq_refl ltac:(discriminate) eq_refl eq_refl eq_refl).
Defined.

Lemma cliMain_no_sitemap_witness :
  main nowhere 2 ["node"; "cli.js"; "example.com"; "--urls"] [] =
  (Exit 1, snd (findMainSitemap nowhere "example.com" [])) /\
  get_requests (snd (findMainSitemap nowhere "example.com" [])) = get_requests [].
Proof.
  apply (cliMain_no_sitemap nowhere 2 ["node"; "cli.js"; "example.com"; "--urls"]
           "example.com" "--urls" [] (snd (findMainSitemap nowhere "example.com" []))
           eq_refl eq_refl ltac:(discriminate) ltac:(discriminate) eq_refl).
Defined.

Lemma main_invalid_domain_witness :
  main example_com 2 ["node"; "cli.js"; "http:/"; "--urls"] [] =
  (Normal tt, ([] ++ [console_error "" (Some TypeError)])%list).
Proof.
  apply (main_invalid_domain example_com 2 ["node"; "cli.js"; "http:/"; "--urls"]
           "http:/" "--urls" [] eq_refl eq_refl ltac:(discriminate) ltac:(discriminate)
           eq_refl).
Defined.

(** ** Only the origin of the domain matters *)

(** X17. Two domain strings that [new URL] gives the same origin are located
    alike: the same answer and the same requests, so a path or a query after
    the host changes nothing. *)
Theorem findMainSitemap_depends_on_origin (P : Platform) (d1 d2 : string) (t : trace) :
  URL_origin P (baseUrl d1) = URL_origin P (baseUrl d2) ->
  fst (findMainSitemap P d1 t) = fst (findMainSitemap P d2 t) /\
  requests (snd (findMainSitemap P d1 t)) = requests (snd (findMainSitemap P d2 t)).
Proof.
  intros Hsame. unfold findMainSitemap, new_URL_origin.
  unfold bind at 1, bind at 2, bind at 3, bind at 4. rewrite Hsame.
  destruct (URL_origin P (baseUrl d2)) as [origin|]; cbn [throw ret];
    [|split; reflexivity].
  unfold bind, emit. apply probe_domain_irrelevant.
Qed.

Lemma findMainSitemap_depends_on_origin_witness :
  fst (findMainSitemap two_reachable "https://cms.example/blog/post?id=7" []) =
  fst (findMainSitemap two_reachable "cms.example" []) /\
  requests (snd (findMainSitemap two_reachable "https://cms.example/blog/post?id=7" [])) =
  requests (snd (findMainSitemap two_reachable "cms.example" [])).
Proof.
  apply (findMainSitemap_depends_on_origin two_reachable
           "https://cms.example/blog/post?id=7" "cms.example" []).
  reflexivity.
Defined.
